(** * utagrades: the search bar and the results page

  A shallow embedding of [src/app/components/SearchBar.tsx] and
  [src/app/results/page.tsx], with the properties of the search /
  suggestion / filter pipeline proved over it.

  JavaScript strings are sequences of UTF-16 code units; they are modelled
  as lists of [N].  React state is modelled as a record that the handlers
  map to a new record; what a handler does to the outside world (console,
  router, network, the [resetState] callback) is recorded in a trace. *)

From Stdlib Require Import String Ascii.
From Stdlib Require Import List NArith ZArith Bool Arith Lia.
Import ListNotations.

(* ================================================================= *)
(** ** JavaScript strings *)

Module JsString.

Local Open Scope N_scope.

(** A UTF-16 code unit. *)
Definition char16 := N.

Definition jsstring := list char16.

(** An ASCII literal as a JavaScript string. *)
Definition lit (s : string) : jsstring :=
  map N_of_ascii (list_ascii_of_string s).

Definition in_range (lo hi c : char16) : bool :=
  (lo <=? c) && (c <=? hi).

(** [\s] of a regular expression, which is also what [trim] strips:
    WhiteSpace and LineTerminator of ECMA-262. *)
Definition is_space (c : char16) : bool :=
  in_range 9 13 c || (c =? 32) || (c =? 160) || (c =? 5760)
  || in_range 8192 8202 c || (c =? 8232) || (c =? 8233)
  || (c =? 8239) || (c =? 8287) || (c =? 12288) || (c =? 65279).

(** [\d] *)
Definition is_digit (c : char16) : bool := in_range 48 57 c.

(** [[a-zA-Z]].  Under the [i] flag (without [u]) the class matches the
    same code units: canonicalisation never maps a code unit above 127
    to an ASCII one. *)
Definition is_alpha (c : char16) : bool :=
  in_range 65 90 c || in_range 97 122 c.

(** The literal [g] under the [i] flag. *)
Definition is_g (c : char16) : bool := (c =? 103) || (c =? 71).

Fixpoint eqb (a b : jsstring) : bool :=
  match a, b with
  | [], [] => true
  | x :: a', y :: b' => (x =? y) && eqb a' b'
  | _, _ => false
  end.

(** [String.prototype.trim] *)
Fixpoint trimStart (s : jsstring) : jsstring :=
  match s with
  | c :: s' => if is_space c then trimStart s' else s
  | [] => []
  end.

Definition trimEnd (s : jsstring) : jsstring := rev (trimStart (rev s)).

Definition trim (s : jsstring) : jsstring := trimEnd (trimStart s).

(** [s.split(sep)] for a separator of one code unit: every occurrence of
    the separator ends a piece, so the result is never empty. *)
Fixpoint split (sep : char16) (s : jsstring) : list jsstring :=
  match s with
  | [] => [[]]
  | c :: s' =>
      if c =? sep then [] :: split sep s'
      else match split sep s' with
           | t :: ts => (c :: t) :: ts
           | [] => [[c]]
           end
  end.

(** [pieces.join(sep)] *)
Fixpoint join (sep : jsstring) (pieces : list jsstring) : jsstring :=
  match pieces with
  | [] => []
  | [p] => p
  | p :: ps => p ++ sep ++ join sep ps
  end.

(** [a.slice(0, n)] of an array *)
Definition slice0 {A : Type} (n : nat) (l : list A) : list A := firstn n l.

End JsString.
Import JsString.

(* ================================================================= *)
(** ** The regular expressions of the search bar

  Every regular expression of [SearchBar.tsx] is a sequence of character
  classes, each taken once or quantified by a greedy [+], between optional
  [^] and [$] anchors.  The matcher below is the backtracking matcher of
  ECMA-262 for that fragment: a [+] first takes as many code units as it
  can and gives them back one at a time while the rest of the pattern
  fails.  Each atom records what it matched; the capture groups of the
  source enclose exactly one atom each, so group [n] is the text of the
  [n]-th atom. *)

Module Regex.

Inductive quant := Once | OneOrMore.

Record atom := Atom { cls : char16 -> bool; qt : quant }.

Record regex := Regex
  { from_start : bool;     (* [^] *)
    atoms : list atom;
    to_end : bool }.       (* [$] *)

Definition match_result := option (list jsstring * jsstring).

(** What follows the last atom. *)
Definition finish (at_end : bool) (s : jsstring) : match_result :=
  if at_end then match s with [] => Some ([], []) | _ :: _ => None end
  else Some ([], s).

Definition once (p : char16 -> bool) (k : jsstring -> match_result)
           (s : jsstring) : match_result :=
  match s with
  | c :: s' =>
      if p c then
        match k s' with
        | Some (caps, r) => Some ([c] :: caps, r)
        | None => None
        end
      else None
  | [] => None
  end.

Fixpoint greedy (p : char16 -> bool) (k : jsstring -> match_result)
         (s : jsstring) : match_result :=
  match s with
  | c :: s' =>
      if p c then
        match greedy p k s' with
        | Some (cap :: caps, r) => Some ((c :: cap) :: caps, r)
        | _ =>
            match k s' with
            | Some (caps, r) => Some ([c] :: caps, r)
            | None => None
            end
        end
      else None
  | [] => None
  end.

(** Matches the atoms at the head of the string: the captures, and what is
    left of the string after the match. *)
Fixpoint match_atoms (ats : list atom) (at_end : bool)
  : jsstring -> match_result :=
  match ats with
  | [] => finish at_end
  | a :: rest =>
      match qt a with
      | Once => once (cls a) (match_atoms rest at_end)
      | OneOrMore => greedy (cls a) (match_atoms rest at_end)
      end
  end.

(** The leftmost match: the text before it, the captures, the text after. *)
Fixpoint search (re : regex) (s : jsstring)
  : option (jsstring * list jsstring * jsstring) :=
  match match_atoms (atoms re) (to_end re) s with
  | Some (caps, r) => Some ([], caps, r)
  | None =>
      if from_start re then None
      else match s with
           | [] => None
           | c :: s' =>
               match search re s' with
               | Some (pre, caps, r) => Some (c :: pre, caps, r)
               | None => None
               end
           end
  end.

(** [re.test(s)] *)
Definition test (re : regex) (s : jsstring) : bool :=
  match search re s with Some _ => true | None => false end.

(** A replacement string: literal text and [$n] references. *)
Inductive piece := Lit (t : jsstring) | Group (n : nat).

Definition expand (tmpl : list piece) (caps : list jsstring) : jsstring :=
  concat (map (fun pc => match pc with
                         | Lit t => t
                         | Group n => nth (pred n) caps []
                         end) tmpl).

(** [s.replace(re, tmpl)] without the [g] flag: the first match only. *)
Definition replace (re : regex) (tmpl : list piece) (s : jsstring)
  : jsstring :=
  match search re s with
  | Some (pre, caps, r) => pre ++ expand tmpl caps ++ r
  | None => s
  end.

(** [s.replace(re, tmpl)] with the [g] flag: after a match the search
    goes on in what follows it.  A match of the patterns used here takes
    at least one code unit, so [S (length s)] rounds are enough. *)
Fixpoint replace_rounds (fuel : nat) (re : regex) (tmpl : list piece)
         (s : jsstring) : jsstring :=
  match fuel with
  | O => s
  | S fuel' =>
      match search re s with
      | Some (pre, caps, r) =>
          pre ++ expand tmpl caps ++ replace_rounds fuel' re tmpl r
      | None => s
      end
  end.

Definition replace_all (re : regex) (tmpl : list piece) (s : jsstring)
  : jsstring :=
  replace_rounds (S (length s)) re tmpl s.

End Regex.
Import Regex.

(* ================================================================= *)
(** ** [normalizeSearchInput] *)

(** [/\s+/g] *)
Definition whitespace_run : regex :=
Regex false [Atom is_space OneOrMore] false.

(** [/^[a-zA-Z]+\d+$/] *)
Definition coursePattern : regex :=
Regex true [Atom is_alpha OneOrMore; Atom is_digit OneOrMore] true.

(** [/([a-zA-Z]+)(\d+)/i] *)
Definition courseSplit : regex :=
Regex false [Atom is_alpha OneOrMore; Atom is_digit OneOrMore] false.

(** [/^[a-zA-Z]+g$/i] *)
Definition professorPattern : regex :=
Regex true [Atom is_alpha OneOrMore; Atom is_g Once] true.

(** [/g$/i] *)
Definition trailing_g : regex :=
Regex false [Atom is_g Once] true.

Definition normalizeSearchInput (input : jsstring) : jsstring :=
if test coursePattern (replace_all whitespace_run [Lit []] input) then
  let noSpaces := replace_all whitespace_run [Lit []] input in
  replace courseSplit [Group 1; Lit (lit " "); Group 2] noSpaces
else if test professorPattern (replace_all whitespace_run [Lit []] input) then
  let noSpaces := replace_all whitespace_run [Lit []] input in
  replace trailing_g [Lit (lit " g")] noSpaces
else
  trim (replace_all whitespace_run [Lit (lit " ")] input).


(* ================================================================= *)
(** ** Built-in functions the search bar calls *)

Module Builtins.

Local Open Scope N_scope.

(** The code units [encodeURIComponent] leaves as they are. *)
Definition is_unreserved (c : char16) : bool :=
  is_alpha c || is_digit c || existsb (N.eqb c) (lit "-_.!~*'()").

Definition is_high_surrogate (c : char16) : bool := in_range 55296 56319 c.

Definition is_low_surrogate (c : char16) : bool := in_range 56320 57343 c.

Definition hex_digit (n : N) : char16 :=
  if n <? 10 then 48 + n else 55 + n.

(** [%XX] *)
Definition percent (byte : N) : jsstring :=
  [37; hex_digit (byte / 16); hex_digit (byte mod 16)].

Definition utf8 (cp : N) : list N :=
  if cp <? 128 then [cp]
  else if cp <? 2048 then [192 + cp / 64; 128 + cp mod 64]
  else if cp <? 65536 then
    [224 + cp / 4096; 128 + (cp / 64) mod 64; 128 + cp mod 64]
  else
    [240 + cp / 262144; 128 + (cp / 4096) mod 64;
     128 + (cp / 64) mod 64; 128 + cp mod 64].

Definition escape (cp : N) : jsstring := concat (map percent (utf8 cp)).

(** [encodeURIComponent(s)]; [None] is the [URIError] thrown at a surrogate
    that has no partner. *)
Fixpoint encodeURIComponent (s : jsstring) : option jsstring :=
  match s with
  | [] => Some []
  | c :: r =>
      if is_unreserved c then option_map (cons c) (encodeURIComponent r)
      else if is_low_surrogate c then None
      else if is_high_surrogate c then
        match r with
        | d :: r' =>
            if is_low_surrogate d then
              option_map
                (app (escape (65536 + (c - 55296) * 1024 + (d - 56320))))
                (encodeURIComponent r')
            else None
        | [] => None
        end
      else option_map (app (escape c)) (encodeURIComponent r)
  end.

(** The longest prefix of code units in a class, and the rest. *)
Fixpoint span (p : char16 -> bool) (s : jsstring) : jsstring * jsstring :=
  match s with
  | c :: s' =>
      if p c then let (a, b) := span p s' in (c :: a, b) else ([], s)
  | [] => ([], [])
  end.

Definition nonempty (s : jsstring) : bool :=
  match s with [] => false | _ :: _ => true end.

Definition strip_sign (s : jsstring) : jsstring :=
  match s with
  | c :: r => if (c =? 43) || (c =? 45) then r else s
  | [] => []
  end.

(** ExponentPart, optional, up to the end of the literal. *)
Definition exponent_part_opt (r : jsstring) : bool :=
  match r with
  | [] => true
  | e :: r' =>
      ((e =? 101) || (e =? 69))
      && nonempty (strip_sign r') && forallb is_digit (strip_sign r')
  end.

(** StrUnsignedDecimalLiteral *)
Definition unsigned_decimal (u : jsstring) : bool :=
  eqb u (lit "Infinity")
  || let (int_part, r1) := span is_digit u in
     match r1 with
     | c :: r2 =>
         if c =? 46 then
           let (frac_part, r3) := span is_digit r2 in
           (nonempty int_part || nonempty frac_part) && exponent_part_opt r3
         else nonempty int_part && exponent_part_opt r1
     | [] => nonempty int_part
     end.

Definition is_hex_digit (c : char16) : bool :=
  is_digit c || in_range 65 70 c || in_range 97 102 c.

(** NonDecimalIntegerLiteral: [0b], [0o] and [0x] literals. *)
Definition non_decimal_integer (t : jsstring) : bool :=
  match t with
  | z :: x :: ds =>
      (z =? 48) && nonempty ds
      && ((((x =? 98) || (x =? 66)) && forallb (in_range 48 49) ds)
          || (((x =? 111) || (x =? 79)) && forallb (in_range 48 55) ds)
          || (((x =? 120) || (x =? 88)) && forallb is_hex_digit ds))
  | _ => false
  end.

(** [isNaN(Number(s))] for a string [s]: [Number] gives [NaN] exactly when
    the trimmed string is neither empty nor a StrNumericLiteral. *)
Definition isNaN_Number (s : jsstring) : bool :=
  match trim s with
  | [] => false
  | t => negb (non_decimal_integer t || unsigned_decimal (strip_sign t))
  end.

End Builtins.
Import Builtins.

(* ================================================================= *)
(** ** The search bar: [SearchBar.tsx] *)

Module SearchBar.

Record Suggestion := { suggestion : jsstring; type : jsstring }.

(** ["course" | "professor"] *)
Inductive RouteType := course_route | professor_route.

(** The props.  [resetState] tells whether the callback was supplied; a
    call of it is the effect [call_resetState]. *)
Record SearchBarProps := {
  initialValue : jsstring;
  resetState : bool;
  course : option jsstring;
  professor : option jsstring;
  routeType : option RouteType }.

(** The three [useState] cells. *)
Record State := {
  searchInput : jsstring;
  suggestions : list Suggestion;
  isLoading : bool }.

Inductive exn :=
| URIError          (* [encodeURIComponent] *)
| FetchRejected     (* the promise of [fetch] rejects *)
| JsonRejected.     (* the promise of [response.json()] rejects *)

(** What the component does to the world around it. *)
Inductive effect :=
| console_log (shown : option jsstring) (picked : jsstring)
| console_error (msg : jsstring) (error : exn)
| call_resetState
| router_push (url : jsstring)
| fetch_request (url : jsstring).

Record World := { ui : State; trace : list effect }.

(** A response is a handle; its body is read by [response.json()]. *)
Definition Response := nat.

(** The world outside the component.  An [await] gives control back to the
    event loop: when the promise settles the state may have been changed by
    other handlers, so the environment also returns the world in which the
    function resumes. *)
Record Env := {
  settle_fetch : jsstring -> World -> World * option Response;
  settle_json : Response -> World -> World * option (list Suggestion) }.

(** Code that reads and writes the state, has effects and may throw. *)
Definition M (A : Type) : Type := Env -> World -> (A + exn) * World.

Definition ret {A : Type} (a : A) : M A := fun _ w => (inl a, w).

Definition throw {A : Type} (e : exn) : M A := fun _ w => (inr e, w).

Definition bind {A B : Type} (m : M A) (f : A -> M B) : M B :=
  fun env w =>
    match m env w with
    | (inl a, w') => f a env w'
    | (inr e, w') => (inr e, w')
    end.

Definition try_catch {A : Type} (body : M A) (handler : exn -> M A) : M A :=
  fun env w =>
    match body env w with
    | (inl a, w') => (inl a, w')
    | (inr e, w') => handler e env w'
    end.

(** [try body finally cleanup]: the cleanup runs on both exits and the
    completion of the body stands unless the cleanup throws. *)
Definition finally {A : Type} (body : M A) (cleanup : M unit) : M A :=
  fun env w =>
    match body env w with
    | (res, w') =>
        match cleanup env w' with
        | (inl _, w'') => (res, w'')
        | (inr e, w'') => (inr e, w'')
        end
    end.

Definition try_catch_finally {A : Type} (body : M A) (handler : exn -> M A)
           (cleanup : M unit) : M A :=
  finally (try_catch body handler) cleanup.

Definition get : M State := fun _ w => (inl (ui w), w).

Definition modify (f : State -> State) : M unit :=
  fun _ w => (inl tt, {| ui := f (ui w); trace := trace w |}).

Definition perform (e : effect) : M unit :=
  fun _ w => (inl tt, {| ui := ui w; trace := trace w ++ [e] |}).

Definition with_searchInput (v : jsstring) (st : State) : State :=
  {| searchInput := v;
     suggestions := suggestions st;
     isLoading := isLoading st |}.

Definition with_suggestions (v : list Suggestion) (st : State) : State :=
  {| searchInput := searchInput st;
     suggestions := v;
     isLoading := isLoading st |}.

Definition with_isLoading (v : bool) (st : State) : State :=
  {| searchInput := searchInput st;
     suggestions := suggestions st;
     isLoading := v |}.

Definition setSearchInput (v : jsstring) : M unit :=
  modify (with_searchInput v).

Definition setSuggestions (v : list Suggestion) : M unit :=
  modify (with_suggestions v).

Definition setIsLoading (v : bool) : M unit :=
  modify (with_isLoading v).

Definition of_option {A : Type} (e : exn) (o : option A) : M A :=
  match o with Some a => ret a | None => throw e end.

(** [await fetch(url)] *)
Definition fetch (url : jsstring) : M Response :=
  fun env w =>
    let sent := {| ui := ui w; trace := trace w ++ [fetch_request url] |} in
    match settle_fetch env url sent with
    | (w', Some response) => (inl response, w')
    | (w', None) => (inr FetchRejected, w')
    end.

(** [await response.json()] *)
Definition json (response : Response) : M (list Suggestion) :=
  fun env w =>
    match settle_json env response w with
    | (w', Some data) => (inl data, w')
    | (w', None) => (inr JsonRejected, w')
    end.

Declare Scope prog_scope.
Delimit Scope prog_scope with prog.
Notation "x <- m ;; k" := (bind m (fun x => k))
  (at level 61, m at next level, right associativity) : prog_scope.
Notation "m ;; k" := (bind m (fun _ => k))
  (at level 61, right associativity) : prog_scope.
Local Open Scope prog_scope.

(** The function handed to [debounce]. *)
Definition fetchSuggestions_body (input : jsstring) : M unit :=
  if 0 <? length input then
    setIsLoading true ;;
    try_catch_finally
      (let normalizedInput := normalizeSearchInput input in
       query <- of_option URIError (encodeURIComponent normalizedInput) ;;
       response <- fetch (lit "/api/courses/search?query=" ++ query) ;;
       data <- json response ;;
       setSuggestions data)
      (fun error =>
         perform (console_error (lit "Error fetching suggestions:") error) ;;
         setSuggestions [])
      (setIsLoading false)
  else
    setSuggestions [].

(** The first two pieces of the selected text, joined again. *)
Definition courseSuggestion_of (picked : jsstring) : jsstring :=
  join (lit " ") (slice0 2 (split 32%N picked)).

(** [course == courseSuggestion]: a prop that was not passed is
    [undefined], which is loosely equal to no string. *)
Definition opt_eqb (o : option jsstring) (s : jsstring) : bool :=
  match o with Some c => eqb c s | None => false end.

Definition is_route (r : RouteType) (o : option RouteType) : bool :=
  match o, r with
  | Some course_route, course_route => true
  | Some professor_route, professor_route => true
  | _, _ => false
  end.

(** The test that guards the reset: the selection is what is displayed. *)
Definition already_displayed (props : SearchBarProps) (picked : jsstring)
  : bool :=
  (opt_eqb (course props) (courseSuggestion_of picked)
   && is_route course_route (routeType props))
  || (opt_eqb (professor props) picked
      && is_route professor_route (routeType props)).

(** The value [suggestion] holds when the route is built. *)
Definition searched_value (picked : jsstring) : jsstring :=
  let parts := split 32%N (courseSuggestion_of picked) in
  if 2 <=? length parts then
    let coursePrefix := nth 0 parts [] in
    let courseNumber := nth 1 parts [] in
    if (length courseNumber =? 4) && negb (isNaN_Number courseNumber)
    then coursePrefix ++ lit " " ++ courseNumber
    else picked
  else picked.

(** [handleSearch(suggestion)].  The parameter is [picked] here, since
    [suggestion] is also the field of [Suggestion].  The list searched for
    the professor entry is the one of the render the handler belongs to:
    [setSuggestions([])] does not change it. *)
Definition handleSearch (props : SearchBarProps) (picked : jsstring)
  : M unit :=
  rendered <- get ;;
  perform (console_log (course props) picked) ;;
  setSearchInput picked ;;
  setSuggestions [] ;;
  (if negb (already_displayed props picked)
   then if resetState props then perform call_resetState else ret tt
   else ret tt) ;;
  let isProfessor :=
    find (fun s => eqb (suggestion s) picked
                   && eqb (type s) (lit "professor"))
         (suggestions rendered) in
  let rewritten := searched_value picked in
  match isProfessor with
  | Some _ =>
      value <- of_option URIError (encodeURIComponent rewritten) ;;
      perform (router_push (lit "/results?professor=" ++ value))
  | None =>
      value <- of_option URIError (encodeURIComponent rewritten) ;;
      perform (router_push (lit "/results?course=" ++ value))
  end.

(** Modelled from the spec: [debounce] is lodash's and not among the
    sources.  Section 4.2 gives it as a trailing debounce: a call keeps its
    argument and starts the wait again, and once [debounce_wait]
    milliseconds have passed without another call the function runs with
    the latest argument.  The component is its world and the call that
    waits, if any, with the milliseconds it still has to wait. *)
Record Component := {
  world : World;
  pending : option (jsstring * nat) }.

Definition debounce_wait : nat := 100.

Definition debounced_call (input : jsstring) (c : Component) : Component :=
  {| world := world c; pending := Some (input, debounce_wait) |}.

(** [handleInputChange]: the event carries the new text of the input. *)
Definition handleInputChange (input : jsstring) (c : Component)
  : Component :=
  debounced_call input
    {| world := {| ui := with_searchInput input (ui (world c));
                   trace := trace (world c) |};
       pending := pending c |}.

(** [dt] milliseconds pass without an event of the input. *)
Definition elapse (env : Env) (dt : nat) (c : Component) : Component :=
  match pending c with
  | Some (input, remaining) =>
      if dt <? remaining then
        {| world := world c; pending := Some (input, remaining - dt) |}
      else
        {| world := snd (fetchSuggestions_body input env (world c));
           pending := None |}
  | None => c
  end.

(** The clean-up of the effect: [fetchSuggestions.cancel()]. *)
Definition unmount (c : Component) : Component :=
  {| world := world c; pending := None |}.

End SearchBar.

(* ================================================================= *)
(** ** The results page: [results/page.tsx] *)

Module ResultsPage.

(** The values the fields of a fetched record and the selections hold.
    The page is untyped: what [response.json()] returns is what is stored.
    Numbers are the integers that years, section numbers and counts are
    (a JSON text has no [NaN]). *)
Inductive JsVal :=
| JUndefined
| JNull
| JBool (b : bool)
| JNumber (n : Z)
| JString (s : jsstring).

(** [ToBoolean], as applied by [v ? a : b]. *)
Definition truthy (v : JsVal) : bool :=
  match v with
  | JUndefined | JNull => false
  | JBool b => b
  | JNumber n => negb (Z.eqb n 0)
  | JString s => nonempty s
  end.

(** [a === b] *)
Definition strict_eq (a b : JsVal) : bool :=
  match a, b with
  | JUndefined, JUndefined => true
  | JNull, JNull => true
  | JBool x, JBool y => Bool.eqb x y
  | JNumber x, JNumber y => Z.eqb x y
  | JString x, JString y => eqb x y
  | _, _ => false
  end.

(** One historical offering of a section.  [course_gpa] is kept as the
    text of its JSON number: the page only displays it. *)
Record SectionRecord := {
  subject_id : JsVal;
  course_number : JsVal;
  instructor1 : JsVal;
  year : JsVal;
  semester : JsVal;
  section_number : JsVal;
  course_gpa : jsstring;
  grades_count : JsVal }.

(** The [useState] cells of the page. *)
Record PageState := {
  courses : list SectionRecord;
  loading : bool;
  selectedProfessor : JsVal;
  selectedYear : JsVal;
  selectedSemester : JsVal;
  selectedSection : option SectionRecord }.

(** [new Set(values)] and [[...set]]: a set keeps its elements in the order
    of their insertion, and [add] leaves the set alone when it holds a
    value that is the same (SameValueZero, which on these values is
    [===]). *)
Definition Set_add (set : list JsVal) (v : JsVal) : list JsVal :=
  if existsb (fun x => strict_eq x v) set then set else set ++ [v].

Definition new_Set (values : list JsVal) : list JsVal :=
  fold_left Set_add values [].

Definition professors (st : PageState) : list JsVal :=
  new_Set (map instructor1 (courses st)).

Definition filteredCourses (st : PageState) : list SectionRecord :=
  if truthy (selectedProfessor st)
  then filter (fun course => strict_eq (instructor1 course)
                                       (selectedProfessor st))
              (courses st)
  else [].

Definition years (st : PageState) : list JsVal :=
  new_Set (map year (filteredCourses st)).

Definition semesters (st : PageState) : list JsVal :=
  new_Set (map semester (filteredCourses st)).

Definition finalFilteredCourses (st : PageState) : list SectionRecord :=
  fold_left
    (fun unique item =>
       if existsb (fun course => strict_eq (section_number course)
                                           (section_number item)) unique
       then unique else unique ++ [item])
    (filter
       (fun course =>
          let matchesYear :=
            if truthy (selectedYear st)
            then strict_eq (year course) (selectedYear st) else true in
          let matchesSemester :=
            if truthy (selectedSemester st)
            then strict_eq (semester course) (selectedSemester st)
            else true in
          matchesYear && matchesSemester)
       (filteredCourses st))
    [].

Definition handleProfessorClick (professor : JsVal) (st : PageState)
  : PageState :=
  {| courses := courses st;
     loading := loading st;
     selectedProfessor := professor;
     selectedYear := JNull;
     selectedSemester := JNull;
     selectedSection := None |}.

End ResultsPage.

(* ================================================================= *)
(** ** What the specification says, in its own words

    The definitions of this part follow the sentences of the specification;
    the theorems below compare the code with them. *)

Module Spec.

Import ResultsPage.

(** The input stripped of whitespace. *)
Definition stripped (s : jsstring) : jsstring :=
  filter (fun c => negb (is_space c)) s.

(** The stripped input [s] matches [^[A-Za-z]+\d+$]: it is [letters]
    followed by [digits], both non-empty. *)
Definition course_shaped (s letters digits : jsstring) : Prop :=
  s = letters ++ digits
  /\ letters <> [] /\ forallb is_alpha letters = true
  /\ digits <> [] /\ forallb is_digit digits = true.

(** The stripped input [s] matches [^[A-Za-z]+g$] without regard to case:
    letters, the last of which is a [g]. *)
Definition name_with_g (s name : jsstring) (g : char16) : Prop :=
  s = name ++ [g]
  /\ name <> [] /\ forallb is_alpha name = true /\ is_g g = true.

(** Every run of whitespace replaced by [t]; [in_run] tells that the code
    unit before was whitespace. *)
Fixpoint runs_replaced (t : jsstring) (in_run : bool) (s : jsstring)
  : jsstring :=
  match s with
  | [] => []
  | c :: s' =>
      if is_space c
      then if in_run then runs_replaced t true s'
           else t ++ runs_replaced t true s'
      else c :: runs_replaced t false s'
  end.

(** Every run of whitespace collapsed to a single space. *)
Definition collapsed (s : jsstring) : jsstring :=
  runs_replaced [32%N] false s.

(** No whitespace but single spaces between other code units and at the
    ends. *)
Fixpoint tidy (s : jsstring) : bool :=
  match s with
  | [] => true
  | c :: s' =>
      (if is_space c
       then N.eqb c 32
            && match s' with d :: _ => negb (is_space d) | [] => true end
       else true)
      && tidy s'
  end.

(** The first element of every key, in the order of the list. *)
Fixpoint first_per_key {A K : Type} (key : A -> K) (same : K -> K -> bool)
         (l : list A) : list A :=
  match l with
  | [] => []
  | x :: l' =>
      x :: filter (fun y => negb (same (key y) (key x)))
                  (first_per_key key same l')
  end.

(** The distinct values of a list, in the order in which they are first
    seen. *)
Definition distinct (l : list JsVal) : list JsVal :=
  first_per_key (fun v => v) strict_eq l.

(** Deduplicated keeping the first record of every [section_number]. *)
Definition dedup_by_section (l : list SectionRecord) : list SectionRecord :=
  first_per_key section_number strict_eq l.

(** Equality of values is decidable. *)
Definition JsVal_eq_dec (a b : JsVal) : {a = b} + {a <> b}.
Proof.
  decide equality.
  - apply Bool.bool_dec.
  - apply Z.eq_dec.
  - apply (list_eq_dec N.eq_dec).
Defined.

(** The records a professor gave. *)
Definition taught_by (p : JsVal) (l : list SectionRecord)
  : list SectionRecord :=
  filter (fun r => if JsVal_eq_dec (instructor1 r) p then true else false) l.

(** The head of a string is not whitespace. *)
Definition starts_clean (s : jsstring) : Prop :=
  match s with c :: _ => is_space c = false | [] => True end.

(** A selection is set when the page takes it as one: [sel ? ... : ...],
    so [null], with which every selection starts, is unset and so is the
    empty string. *)
Definition is_set (sel : JsVal) : bool := truthy sel.

(** The records a year and a semester selection leave. *)
Definition narrowed (selYear selSemester : JsVal) (l : list SectionRecord)
  : list SectionRecord :=
  let by_year :=
    if is_set selYear
    then filter (fun r => strict_eq (year r) selYear) l else l in
  if is_set selSemester
  then filter (fun r => strict_eq (semester r) selSemester) by_year
  else by_year.

(** *** The search bar *)

Import SearchBar.

(** [tokens] is the first two space-separated tokens of [picked], with the
    space between them: when [picked] has a space, what is before the
    first space, a space and what is between the first space and the
    second (or the end); when it has none, [picked] itself. *)
Definition first_two_tokens (picked tokens : jsstring) : Prop :=
  split 32%N picked = [tokens]
  \/ exists first second others,
      split 32%N picked = first :: second :: others
      /\ tokens = first ++ lit " " ++ second.

(** The selection is what the view displays: its first two tokens are the
    displayed course and the route is a course route, or it is the
    displayed professor and the route is a professor route. *)
Definition same_content (props : SearchBarProps) (picked : jsstring) : Prop :=
  (exists tokens,
      first_two_tokens picked tokens
      /\ course props = Some tokens
      /\ routeType props = Some course_route)
  \/ (professor props = Some picked
      /\ routeType props = Some professor_route).

(** The list holds an entry with that text and the type ["professor"]. *)
Definition professor_entry (l : list Suggestion) (picked : jsstring) : Prop :=
  exists s, In s l /\ suggestion s = picked /\ type s = lit "professor".

Definition jsstring_eq_dec (a b : jsstring) : {a = b} + {a <> b} :=
  list_eq_dec N.eq_dec a b.

Definition same_content_dec (props : SearchBarProps) (picked : jsstring) :
  {same_content props picked} + {~ same_content props picked}.
Proof.
  assert (text : forall a b : option jsstring, {a = b} + {a <> b})
    by (decide equality; apply jsstring_eq_dec).
  assert (route : forall a b : option RouteType, {a = b} + {a <> b})
    by (repeat decide equality).
  unfold same_content, first_two_tokens.
  destruct (text (professor props) (Some picked)) as [Tp|Tp],
    (route (routeType props) (Some professor_route)) as [Rp|Rp];
    try (left; right; split; assumption);
    (destruct (route (routeType props) (Some course_route)) as [Rc|Rc];
     [|right; intros [(t & _ & _ & R)|[T R]]; tauto]);
    (destruct (split 32%N picked) as [|first [|second others]];
     [ right; intros [(t & [E|(a & b & o & E & _)] & _)|[T R]];
       [discriminate | discriminate | tauto]
     | destruct (text (course props) (Some first)) as [Tc|Tc];
       [ left; left; exists first; split; [left; reflexivity | tauto]
       | right; intros [(t & [E|(a & b & o & E & _)] & C & _)|[T R]];
         [ injection E as <-; tauto | discriminate | tauto ] ]
     | destruct (text (course props)
                      (Some (first ++ lit " " ++ second))) as [Tc|Tc];
       [ left; left; exists (first ++ lit " " ++ second);
         split; [right; exists first, second, others; tauto | tauto]
       | right; intros [(t & [E|(a & b & o & E & ->)] & C & _)|[T R]];
         [ discriminate
         | injection E as <- <- _; tauto
         | tauto ] ] ]).
Defined.

Definition professor_entry_dec (l : list Suggestion) (picked : jsstring) :
  {professor_entry l picked} + {~ professor_entry l picked}.
Proof.
  unfold professor_entry. induction l as [|s l IH].
  - right. intros (s & [] & _).
  - destruct (jsstring_eq_dec (suggestion s) picked) as [E1|E1],
      (jsstring_eq_dec (type s) (lit "professor")) as [E2|E2];
      try (left; exists s; simpl; tauto);
      (destruct IH as [IH|IH];
       [ left; destruct IH as (s0 & H0 & H1); exists s0; simpl; tauto
       | right; intros (s0 & [<-|H0] & H1 & H2);
         [ tauto | apply IH; exists s0; tauto ] ]).
Defined.

(** The calls of [resetState] a selection makes. *)
Definition reset_calls (props : SearchBarProps) (picked : jsstring)
  : list effect :=
  if negb (already_displayed props picked)
  then if resetState props then [call_resetState] else []
  else [].

(** The world when [handleSearch] reaches the route. *)
Definition selected_world (props : SearchBarProps) (picked : jsstring)
           (w : World) : World :=
  {| ui := with_suggestions [] (with_searchInput picked (ui w));
     trace := trace w ++ console_log (course props) picked
                         :: reset_calls props picked |}.

(** The route [handleSearch] takes for a rendered list. *)
Definition chosen_route (rendered : list Suggestion) (picked : jsstring)
  : jsstring :=
  match find (fun s => eqb (suggestion s) picked
                       && eqb (type s) (lit "professor")) rendered with
  | Some _ => lit "/results?professor="
  | None => lit "/results?course="
  end.

(** How often a trace calls [resetState]. *)
Definition resets (t : list effect) : nat :=
  length (filter (fun e => match e with call_resetState => true
                                      | _ => false end) t).

(** The routes a trace navigates to, in order. *)
Fixpoint pushed (t : list effect) : list jsstring :=
  match t with
  | [] => []
  | router_push url :: t' => url :: pushed t'
  | _ :: t' => pushed t'
  end.

(** The requests a trace sends, in order. *)
Fixpoint requests (t : list effect) : list jsstring :=
  match t with
  | [] => []
  | fetch_request url :: t' => url :: requests t'
  | _ :: t' => requests t'
  end.

(** The world a dispatch leaves when its request failed with [e]. *)
Definition failed_world (e : exn) (w : World) : World :=
  {| ui := {| searchInput := searchInput (ui w);
              suggestions := [];
              isLoading := false |};
     trace := trace w
              ++ [console_error (lit "Error fetching suggestions:") e] |}.

(** The world a dispatch leaves when its request gave [data]. *)
Definition loaded_world (data : list Suggestion) (w : World) : World :=
  {| ui := {| searchInput := searchInput (ui w);
              suggestions := data;
              isLoading := false |};
     trace := trace w |}.

(** The world in which the request of a dispatch is sent. *)
Definition sending_world (url : jsstring) (w : World) : World :=
  {| ui := with_isLoading true (ui w);
     trace := trace w ++ [fetch_request url] |}.

(** The request a dispatch sends for an input, when the normalized input
    can be encoded. *)
Definition request_of (input : jsstring) : option jsstring :=
  option_map (app (lit "/api/courses/search?query="))
             (encodeURIComponent (normalizeSearchInput input)).

(** The request of a dispatch fails: the promise of [fetch] rejects, or
    it resolves and the promise of [response.json()] rejects. *)
Definition request_fails (env : Env) (input : jsstring) (w : World) : Prop :=
  match request_of input with
  | Some url =>
      match settle_fetch env url (sending_world url w) with
      | (_, None) => True
      | (w', Some response) => snd (settle_json env response w') = None
      end
  | None => False
  end.

(** The error a failed request is logged with. *)
Definition is_request_error (e : exn) : Prop :=
  e = FetchRejected \/ e = JsonRejected.

End Spec.

(* ================================================================= *)
(** ** Values for the examples *)

Module Samples.

Import SearchBar ResultsPage.

(** A search bar that was given no props. *)
Definition no_props : SearchBarProps :=
  {| initialValue := [];
     resetState := false;
     course := None;
     professor := None;
     routeType := None |}.

(** A network on which every request is rejected. *)
Definition quiet_env : Env :=
  {| settle_fetch := fun _ w => (w, None);
     settle_json := fun _ w => (w, None) |}.

(** Nothing typed, nothing shown, nothing done. *)
Definition blank_world : World :=
  {| ui := {| searchInput := []; suggestions := []; isLoading := false |};
     trace := [] |}.

Definition Suggestion_of (text kind : string) : Suggestion :=
  {| suggestion := lit text; type := lit kind |}.

(** A component that shows one suggestion and waits for nothing. *)
Definition showing_one : Component :=
  {| world :=
       {| ui := {| searchInput := lit "c";
                   suggestions := [Suggestion_of "CSE 1310" "course"];
                   isLoading := false |};
          trace := [] |};
     pending := None |}.

(** A component on which nothing happened yet. *)
Definition mounted : Component := {| world := blank_world; pending := None |}.

(** A network that answers every request with one suggestion. *)
Definition answering_env : Env :=
  {| settle_fetch := fun _ w => (w, Some 0);
     settle_json :=
       fun _ w => (w, Some [Suggestion_of "CSE 1310 INTRO" "course"]) |}.

Definition section_of (prof yr sem sec gpa : string) (count : Z)
  : SectionRecord :=
  {| subject_id := JString (lit "CSE");
     course_number := JString (lit "1310");
     instructor1 := JString (lit prof);
     year := JString (lit yr);
     semester := JString (lit sem);
     section_number := JString (lit sec);
     course_gpa := lit gpa;
     grades_count := JNumber count |}.

Definition smith_fall : SectionRecord :=
  section_of "Smith" "2023" "Fall" "001" "3.1" 40.

Definition smith_spring : SectionRecord :=
  section_of "Smith" "2022" "Spring" "002" "2.9" 35.

(** A second record with the section number of [smith_fall]. *)
Definition smith_again : SectionRecord :=
  section_of "Smith" "2021" "Summer" "001" "3.5" 12.

Definition page_of (l : list SectionRecord) (prof yr : JsVal) : PageState :=
  {| courses := l;
     loading := false;
     selectedProfessor := prof;
     selectedYear := yr;
     selectedSemester := JNull;
     selectedSection := None |}.

(** A record of a professor whose name is the empty string. *)
Definition unnamed : SectionRecord :=
  {| subject_id := JString (lit "CSE");
     course_number := JString (lit "1310");
     instructor1 := JString [];
     year := JString (lit "2023");
     semester := JString (lit "Fall");
     section_number := JString (lit "001");
     course_gpa := lit "3.1";
     grades_count := JNumber 40 |}.

(** The results page showing CSE 3320, with a reset callback. *)
Definition on_cse3320 : SearchBarProps :=
  {| initialValue := lit "CSE 3320";
     resetState := true;
     course := Some (lit "CSE 3320");
     professor := None;
     routeType := Some course_route |}.

End Samples.

(* ================================================================= *)
(** ** The search bar: the keyboard, the icon and the dropdown *)

Module SearchBarView.

Import SearchBar.
Local Open Scope prog_scope.

(** [onKeyDown] of the input:
    [e.key === 'Enter' && suggestions.length > 0
     && handleSearch(suggestions[0].suggestion)]. *)
Definition onKeyDown (props : SearchBarProps) (key : jsstring) : M unit :=
  rendered <- get ;;
  if eqb key (lit "Enter") then
    match suggestions rendered with
    | first :: _ => handleSearch props (suggestion first)
    | [] => ret tt
    end
  else ret tt.

(** [onClick] of the search icon. *)
Definition onIconClick (props : SearchBarProps) : M unit :=
  rendered <- get ;;
  match suggestions rendered with
  | first :: _ => handleSearch props (suggestion first)
  | [] => ret tt
  end.

(** What is rendered under the input: the grey box while [isLoading], the
    list when there are suggestions and nothing is loading. *)
Inductive Dropdown :=
| LoadingBox
| SuggestionItems (texts : list jsstring)
| NoDropdown.

Definition dropdown (st : State) : Dropdown :=
  if isLoading st then LoadingBox
  else if 0 <? length (suggestions st)
       then SuggestionItems (map suggestion (suggestions st))
       else NoDropdown.

(** A burst of typing: after the first keystroke, each further one comes
    [gap] milliseconds after the one before. *)
Definition keystroke (env : Env) (c : Component) (next : nat * jsstring)
  : Component :=
  handleInputChange (snd next) (elapse env (fst next) c).

Definition typing (env : Env) (first : jsstring)
           (more : list (nat * jsstring)) (c : Component) : Component :=
  fold_left (keystroke env) more (handleInputChange first c).

(** The last text of a burst. *)
Definition last_typed (first : jsstring) (more : list (nat * jsstring))
  : jsstring :=
  last (map snd more) first.

(** An environment in which a later dispatch for [newer] runs from start to
    end while the request of the dispatch under study is in flight, and
    that then answers this request with [data]. *)
Definition overtaken_by (newer : jsstring) (inner : Env)
           (data : list Suggestion) : Env :=
  {| settle_fetch :=
       fun _ w => (snd (fetchSuggestions_body newer inner w), Some 0);
     settle_json := fun _ w => (w, Some data) |}.

(** An environment that answers at once, with nothing else happening. *)
Definition answers_with (data : list Suggestion) : Env :=
  {| settle_fetch := fun _ w => (w, Some 0);
     settle_json := fun _ w => (w, Some data) |}.

End SearchBarView.

(* ================================================================= *)
(** ** Code with effects over any state

    The monad of the search bar again, for the other components: [E] is
    the world outside, [W] the state with its trace. *)

Module Eff.

Import SearchBar.

Section WithWorld.

Variables E W : Type.

Definition M (A : Type) : Type := E -> W -> (A + exn) * W.

Definition ret {A : Type} (a : A) : M A := fun _ w => (inl a, w).

Definition throw {A : Type} (e : exn) : M A := fun _ w => (inr e, w).

Definition bind {A B : Type} (m : M A) (f : A -> M B) : M B :=
  fun env w =>
    match m env w with
    | (inl a, w') => f a env w'
    | (inr e, w') => (inr e, w')
    end.

Definition try_catch {A : Type} (body : M A) (handler : exn -> M A) : M A :=
  fun env w =>
    match body env w with
    | (inl a, w') => (inl a, w')
    | (inr e, w') => handler e env w'
    end.

Definition finally {A : Type} (body : M A) (cleanup : M unit) : M A :=
  fun env w =>
    match body env w with
    | (res, w') =>
        match cleanup env w' with
        | (inl _, w'') => (res, w'')
        | (inr e, w'') => (inr e, w'')
        end
    end.

Definition try_catch_finally {A : Type} (body : M A) (handler : exn -> M A)
           (cleanup : M unit) : M A :=
  finally (try_catch body handler) cleanup.

Definition of_option {A : Type} (e : exn) (o : option A) : M A :=
  match o with Some a => ret a | None => throw e end.

Definition read : M W := fun _ w => (inl w, w).

Definition update (f : W -> W) : M unit := fun _ w => (inl tt, f w).

(** [await]: the environment settles the promise and gives the world in
    which the function resumes; a rejection is thrown as [e]. *)
Definition await {A : Type} (e : exn) (settle : E -> W -> W * option A)
  : M A :=
  fun env w =>
    match settle env w with
    | (w', Some a) => (inl a, w')
    | (w', None) => (inr e, w')
    end.

End WithWorld.

Arguments ret {E W A} a.
Arguments throw {E W A} e.
Arguments bind {E W A B} m f.
Arguments try_catch {E W A} body handler.
Arguments finally {E W A} body cleanup.
Arguments try_catch_finally {E W A} body handler cleanup.
Arguments of_option {E W A} e o.
Arguments read {E W}.
Arguments update {E W} f.
Arguments await {E W A} e settle.

Declare Scope eff_scope.
Delimit Scope eff_scope with eff.
Notation "x <- m ;; k" := (bind m (fun x => k))
  (at level 61, m at next level, right associativity) : eff_scope.
Notation "m ;; k" := (bind m (fun _ => k))
  (at level 61, right associativity) : eff_scope.

End Eff.

(* ================================================================= *)
(** ** The results page: what it renders and its events *)

Module ResultsPageView.

Import ResultsPage.

(** The left column: the professors, or the panel of the selected one. *)
Inductive Sidebar :=
| ProfessorList (names : list JsVal)
| ProfessorPanel (professor : JsVal) (yearOptions semesterOptions : list JsVal)
                 (sections : list SectionRecord).

(** The right column. *)
Inductive Detail :=
| SectionDetail (section : SectionRecord)
| Hint (text : jsstring).

Inductive Screen :=
| LoadingScreen
| NoResultsScreen
| ResultsScreen (sidebar : Sidebar) (detail : Detail).

Definition professor_hint : jsstring :=
  lit "Select Year, Semester, and Section to see more information.".

Definition no_professor_hint : jsstring :=
  lit "Select a Professor to see more information.".

(** The branches of the JSX the component returns. *)
Definition render (st : PageState) : Screen :=
  if loading st then LoadingScreen
  else if length (courses st) =? 0 then NoResultsScreen
  else
    ResultsScreen
      (if truthy (selectedProfessor st)
       then ProfessorPanel (selectedProfessor st) (years st) (semesters st)
                           (finalFilteredCourses st)
       else ProfessorList (professors st))
      (match selectedSection st with
       | Some section => SectionDetail section
       | None =>
           Hint (if truthy (selectedProfessor st)
                 then professor_hint else no_professor_hint)
       end).

(** [onChange] of the year dropdown: [setSelectedYear(e.target.value)];
    the value of a [select] element is a string. *)
Definition selectYear (value : jsstring) (st : PageState) : PageState :=
  {| courses := courses st;
     loading := loading st;
     selectedProfessor := selectedProfessor st;
     selectedYear := JString value;
     selectedSemester := selectedSemester st;
     selectedSection := selectedSection st |}.


(** [onClick] of a section of the list: [setSelectedSection(course)]. *)
Definition selectSection (section : SectionRecord) (st : PageState)
  : PageState :=
  {| courses := courses st;
     loading := loading st;
     selectedProfessor := selectedProfessor st;
     selectedYear := selectedYear st;
     selectedSemester := selectedSemester st;
     selectedSection := Some section |}.

(** [onClick] of "Back to Professors": three setters, none for the
    section. *)
Definition backToProfessors (st : PageState) : PageState :=
  {| courses := courses st;
     loading := loading st;
     selectedProfessor := JNull;
     selectedYear := JNull;
     selectedSemester := JNull;
     selectedSection := selectedSection st |}.

(** What a user can do on the page. *)
Inductive event :=
| ClickProfessor (professor : JsVal)
| ChooseYear (value : jsstring)
| ChooseSemester (value : jsstring)
| ClickSection (section : SectionRecord)
| ClickBack.


(** The events the rendered screen offers: an entry of the professor list;
    in the panel, the two dropdowns (any string is let through here), a
    section of the list and the back button. *)
Definition offered (st : PageState) (e : event) : Prop :=
  match render st, e with
  | ResultsScreen (ProfessorList names) _, ClickProfessor p => In p names
  | ResultsScreen (ProfessorPanel _ _ _ _) _, ChooseYear _ => True
  | ResultsScreen (ProfessorPanel _ _ _ _) _, ChooseSemester _ => True
  | ResultsScreen (ProfessorPanel _ _ _ sections) _, ClickSection r =>
      In r sections
  | ResultsScreen (ProfessorPanel _ _ _ _) _, ClickBack => True
  | _, _ => False
  end.

(** The page once a list arrived, nothing selected. *)
Definition loaded (l : list SectionRecord) : PageState :=
  {| courses := l;
     loading := false;
     selectedProfessor := JNull;
     selectedYear := JNull;
     selectedSemester := JNull;
     selectedSection := None |}.


End ResultsPageView.

(* ================================================================= *)
(** ** The results page: fetching the course *)

Module ResultsPageFetch.

Import SearchBar ResultsPage Eff.
Local Open Scope eff_scope.

Inductive page_effect :=
| log_error (msg : jsstring) (error : exn)
| send_request (url : jsstring).

Record PageWorld := { page : PageState; done : list page_effect }.

(** The network: as for the search bar, settling a promise also gives the
    world in which the function resumes. *)
Record PageEnv := {
  courses_fetch : jsstring -> PageWorld -> PageWorld * option Response;
  courses_json :
    Response -> PageWorld -> PageWorld * option (list SectionRecord) }.

Definition PM : Type -> Type := M PageEnv PageWorld.

Definition on_page (f : PageState -> PageState) : PM unit :=
  update (fun w => {| page := f (page w); done := done w |}).

Definition record_effect (e : page_effect) : PM unit :=
  update (fun w => {| page := page w; done := done w ++ [e] |}).

Definition with_courses (v : list SectionRecord) (st : PageState)
  : PageState :=
  {| courses := v;
     loading := loading st;
     selectedProfessor := selectedProfessor st;
     selectedYear := selectedYear st;
     selectedSemester := selectedSemester st;
     selectedSection := selectedSection st |}.

Definition with_loading (v : bool) (st : PageState) : PageState :=
  {| courses := courses st;
     loading := v;
     selectedProfessor := selectedProfessor st;
     selectedYear := selectedYear st;
     selectedSemester := selectedSemester st;
     selectedSection := selectedSection st |}.

Definition setCourses (v : list SectionRecord) : PM unit :=
  on_page (with_courses v).

Definition setLoading (v : bool) : PM unit := on_page (with_loading v).

(** [searchParams.get('course')] is a string or [null]; [if (course)]
    takes a string that is not empty. *)
Definition present (course : option jsstring) : bool :=
  match course with Some (_ :: _) => true | _ => false end.

Definition text_of (course : option jsstring) : jsstring :=
  match course with Some c => c | None => [] end.

(** [await fetch(url)] *)
Definition fetch (url : jsstring) : PM Response :=
  record_effect (send_request url) ;;
  await FetchRejected (fun env => courses_fetch env url).

(** [await response.json()] *)
Definition json (response : Response) : PM (list SectionRecord) :=
  await JsonRejected (fun env => courses_json env response).

(** [fetchCourses], the function of the effect. *)
Definition fetchCourses (course : option jsstring) : PM unit :=
  setLoading true ;;
  try_catch_finally
    (if present course then
       query <- of_option URIError (encodeURIComponent (text_of course)) ;;
       response <- fetch (lit "/api/courses/search?course=" ++ query) ;;
       data <- json response ;;
       setCourses data
     else ret tt)
    (fun error => record_effect (log_error (lit "Error fetching courses:")
                                           error))
    (setLoading false).

(** The four setters that follow the call of [fetchCourses]. *)
Definition resetSelections (w : PageWorld) : PageWorld :=
  {| page := {| courses := courses (page w);
                loading := loading (page w);
                selectedProfessor := JNull;
                selectedYear := JNull;
                selectedSemester := JNull;
                selectedSection := None |};
     done := done w |}.

(** The environment as the function sees it when its caller goes on with
    [now] while the request is in flight. *)
Definition caller_continues (now : PageWorld -> PageWorld) (env : PageEnv)
  : PageEnv :=
  {| courses_fetch := fun url w => courses_fetch env url (now w);
     courses_json := courses_json env |}.

(** The effect on [course].  [fetchCourses()] gives control back at its
    first [await], so the four setters run while the request is in
    flight; when the function never awaits (the course cannot be encoded)
    they run after it. *)
Definition courseEffect (course : option jsstring) (env : PageEnv)
           (w : PageWorld) : PageWorld :=
  if present course then
    match encodeURIComponent (text_of course) with
    | Some _ =>
        snd (fetchCourses course (caller_continues resetSelections env) w)
    | None => resetSelections (snd (fetchCourses course env w))
    end
  else w.

(** The state the component is mounted with. *)
Definition initial_page : PageState :=
  {| courses := [];
     loading := true;
     selectedProfessor := JNull;
     selectedYear := JNull;
     selectedSemester := JNull;
     selectedSection := None |}.

Definition mounted_page : PageWorld := {| page := initial_page; done := [] |}.

(** The props the page gives its search bar:
    [<SearchBar initialValue={course || ''} />]. *)
Definition searchBar_props (course : option jsstring) : SearchBarProps :=
  {| initialValue := text_of course;
     resetState := false;
     SearchBar.course := None;
     professor := None;
     routeType := None |}.

End ResultsPageFetch.

(* ================================================================= *)
(** ** The earlier search bar: [unnamed/part_001] *)

Module LegacySearchBar.

Import SearchBar Eff.
Local Open Scope eff_scope.

Record LegacyProps := {
  legacy_initialValue : jsstring;
  has_resetState : bool;
  has_resetProf : bool;
  has_resetCourse : bool }.

Inductive legacy_effect :=
| say (msg : jsstring)
| say_error (msg : jsstring) (error : exn)
| run_resetState
| run_resetCourse
| run_resetProf
| do_push (url : jsstring)
| do_replace (url : jsstring)
| do_fetch (url : jsstring).

(** The state, the two parameters of [window.location.href] that
    [searchParams.get] can be asked for, and the trace. *)
Record LegacyWorld := {
  cells : State;
  professor_param : option jsstring;
  course_param : option jsstring;
  effects : list legacy_effect }.

Record LegacyEnv := {
  legacy_fetch : jsstring -> LegacyWorld -> LegacyWorld * option Response;
  legacy_json :
    Response -> LegacyWorld -> LegacyWorld * option (list Suggestion) }.

Definition LM : Type -> Type := M LegacyEnv LegacyWorld.

Definition on_cells (f : State -> State) : LM unit :=
  update (fun w => {| cells := f (cells w);
                      professor_param := professor_param w;
                      course_param := course_param w;
                      effects := effects w |}).

Definition emit (e : legacy_effect) : LM unit :=
  update (fun w => {| cells := cells w;
                      professor_param := professor_param w;
                      course_param := course_param w;
                      effects := effects w ++ [e] |}).

(** The function handed to [debounce]: the input goes into the URL as it
    is. *)
Definition fetchSuggestions_body (input : jsstring) : LM unit :=
  if 1 <? length input then
    on_cells (with_isLoading true) ;;
    try_catch_finally
      (emit (do_fetch (lit "/api/courses/search?query=" ++ input)) ;;
       response <- await FetchRejected
                     (fun env =>
                        legacy_fetch env
                          (lit "/api/courses/search?query=" ++ input)) ;;
       data <- await JsonRejected (fun env => legacy_json env response) ;;
       on_cells (with_suggestions data))
      (fun error =>
         emit (say_error (lit "Error fetching suggestions:") error) ;;
         on_cells (with_suggestions []))
      (on_cells (with_isLoading false))
  else
    on_cells (with_suggestions []).

(** [currentSearch === suggestion]: [get] gives [null] for a parameter
    that is not there. *)
Definition param_is (param : option jsstring) (s : jsstring) : bool :=
  match param with Some v => eqb v s | None => false end.

(** [handleSearch(suggestion)] *)
Definition handleSearch (props : LegacyProps) (picked : jsstring) : LM unit :=
  rendered <- read ;;
  on_cells (with_searchInput picked) ;;
  on_cells (with_suggestions []) ;;
  let isProfessor :=
    existsb (fun s => eqb (suggestion s) picked
                      && eqb (type s) (lit "professor"))
            (suggestions (cells rendered)) in
  value <- of_option URIError (encodeURIComponent picked) ;;
  let queryParam :=
    if isProfessor then lit "professor=" ++ value
    else lit "course=" ++ value in
  let currentSearch :=
    if isProfessor then professor_param rendered
    else course_param rendered in
  if param_is currentSearch picked then
    (if isProfessor && has_resetCourse props then
       emit (say (lit "resetting setSelectedCourse")) ;;
       emit run_resetCourse
     else if has_resetProf props then
       emit (say (lit "resetting setSelectedProfessor")) ;;
       emit run_resetProf
     else ret tt) ;;
    emit (do_replace (lit "/results?" ++ queryParam))
  else
    (if has_resetState props then
       emit (say (lit "resetting all values")) ;;
       emit run_resetState
     else ret tt) ;;
    emit (do_push (lit "/results?" ++ queryParam)).

End LegacySearchBar.

(* ================================================================= *)
(** ** Notions the further properties are stated with *)

Module Notions.

Import SearchBar ResultsPage Spec.

(** A string of UTF-16 code units. *)
Definition utf16 (s : jsstring) : Prop := Forall (fun c => (c < 65536)%N) s.

(** The code units a URI component is made of once encoded: the unreserved
    ones and the percent sign. *)
Definition is_uri_safe (c : char16) : bool := is_unreserved c || (c =? 37)%N.

(** No whitespace at either end, and inside only single spaces. *)
Definition well_spaced (s : jsstring) : Prop :=
  tidy s = true /\ starts_clean s /\ starts_clean (rev s).

(** The environment leaves the trace alone while a request is in flight. *)
Definition keeps_trace (env : Env) : Prop :=
  (forall url w, trace (fst (settle_fetch env url w)) = trace w)
  /\ (forall response w, trace (fst (settle_json env response w)) = trace w).

(** The calls of a callback in a trace of the earlier search bar. *)
Definition callbacks (t : list LegacySearchBar.legacy_effect) : nat :=
  length (filter (fun e => match e with
                           | LegacySearchBar.run_resetState
                           | LegacySearchBar.run_resetCourse
                           | LegacySearchBar.run_resetProf => true
                           | _ => false
                           end) t).

(** The navigations in a trace of the earlier search bar. *)
Definition navigations (t : list LegacySearchBar.legacy_effect) : nat :=
  length (filter (fun e => match e with
                           | LegacySearchBar.do_push _
                           | LegacySearchBar.do_replace _ => true
                           | _ => false
                           end) t).

(** The request for the list of a course was rejected, by [fetch] or by
    [response.json()], and [w'] is the world in which the rejection
    arrived. *)
Definition course_request_rejected
           (env : ResultsPageFetch.PageEnv) (course : option jsstring)
           (w w' : ResultsPageFetch.PageWorld) : Prop :=
  exists query,
    encodeURIComponent (ResultsPageFetch.text_of course) = Some query
    /\ let url := lit "/api/courses/search?course=" ++ query in
       let sent :=
         {| ResultsPageFetch.page :=
              ResultsPageFetch.with_loading true (ResultsPageFetch.page w);
            ResultsPageFetch.done :=
              ResultsPageFetch.done w
              ++ [ResultsPageFetch.send_request url] |} in
       match ResultsPageFetch.courses_fetch env url sent with
       | (w1, None) => w' = w1
       | (w1, Some response) =>
           ResultsPageFetch.courses_json env response w1 = (w', None)
       end.

(** A network that answers the request for a course with [data] while
    nothing else happens. *)
Definition serves (data : list SectionRecord) : ResultsPageFetch.PageEnv :=
  {| ResultsPageFetch.courses_fetch := fun _ w => (w, Some 0);
     ResultsPageFetch.courses_json := fun _ w => (w, Some data) |}.

(** A network on which the request for a course is rejected. *)
Definition refuses : ResultsPageFetch.PageEnv :=
  {| ResultsPageFetch.courses_fetch := fun _ w => (w, None);
     ResultsPageFetch.courses_json := fun _ w => (w, None) |}.

(** A record whose year is a number. *)
Definition numbered : SectionRecord :=
  {| subject_id := JString (lit "CSE");
     course_number := JNumber 1310;
     instructor1 := JString (lit "Smith");
     year := JNumber 2023;
     semester := JString (lit "Fall");
     section_number := JString (lit "001");
     course_gpa := lit "3.1";
     grades_count := JNumber 40 |}.



(** The requests in a trace of the earlier search bar. *)
Fixpoint fetched (t : list LegacySearchBar.legacy_effect) : list jsstring :=
  match t with
  | [] => []
  | LegacySearchBar.do_fetch url :: t' => url :: fetched t'
  | _ :: t' => fetched t'
  end.

(** The environment of the earlier search bar leaves the trace alone. *)
Definition keeps_effects (env : LegacySearchBar.LegacyEnv) : Prop :=
  (forall url w,
      LegacySearchBar.effects (fst (LegacySearchBar.legacy_fetch env url w))
      = LegacySearchBar.effects w)
  /\ (forall response w,
         LegacySearchBar.effects
           (fst (LegacySearchBar.legacy_json env response w))
         = LegacySearchBar.effects w).

(** A network of the earlier search bar on which every request is
    rejected. *)
Definition legacy_refuses : LegacySearchBar.LegacyEnv :=
  {| LegacySearchBar.legacy_fetch := fun _ w => (w, None);
     LegacySearchBar.legacy_json := fun _ w => (w, None) |}.

(** The earlier search bar on the page of a course, one suggestion
    shown. *)
Definition legacy_world (shown : option jsstring)
  : LegacySearchBar.LegacyWorld :=
  {| LegacySearchBar.cells :=
       {| searchInput := lit "c";
          suggestions := [{| suggestion := lit "CSE 1310";
                             type := lit "course" |}];
          isLoading := false |};
     LegacySearchBar.professor_param := None;
     LegacySearchBar.course_param := shown;
     LegacySearchBar.effects := [] |}.

Definition legacy_props : LegacySearchBar.LegacyProps :=
  {| LegacySearchBar.legacy_initialValue := [];
     LegacySearchBar.has_resetState := true;
     LegacySearchBar.has_resetProf := true;
     LegacySearchBar.has_resetCourse := true |}.

End Notions.

(* ================================================================= *)
(** * Properties *)

Import SearchBar ResultsPage Spec Samples.

(* ----------------------------------------------------------------- *)
(** ** Character classes *)

Ltac class_facts :=
  unfold is_alpha, is_digit, is_space, is_g, in_range in *;
  repeat rewrite ?orb_true_iff, ?andb_true_iff, ?orb_false_iff,
    ?andb_false_iff, ?N.leb_le, ?N.eqb_eq, ?N.leb_gt, ?N.eqb_neq in *;
  lia.

Lemma alpha_not_space (c : char16) : is_alpha c = true -> is_space c = false.
Proof. intros H. class_facts. Qed.

Lemma digit_not_space (c : char16) : is_digit c = true -> is_space c = false.
Proof. intros H. class_facts. Qed.

Lemma digit_not_alpha (c : char16) : is_digit c = true -> is_alpha c = false.
Proof. intros H. class_facts. Qed.

Lemma g_is_alpha (c : char16) : is_g c = true -> is_alpha c = true.
Proof. intros H. class_facts. Qed.

Lemma g_not_digit (c : char16) : is_g c = true -> is_digit c = false.
Proof. intros H. class_facts. Qed.

Lemma all_no_space (p : char16 -> bool) (s : jsstring) :
  (forall c, p c = true -> is_space c = false) ->
  forallb p s = true -> stripped s = s.
Proof.
  intros Hp. induction s as [|c s IH]; simpl; [reflexivity|].
  rewrite andb_true_iff. intros [Hc Hs].
  rewrite (Hp c Hc). simpl. f_equal. now apply IH.
Qed.

(* ----------------------------------------------------------------- *)
(** ** The matcher *)

Lemma span_all (p : char16 -> bool) (s : jsstring) :
  forallb p s = true -> span p s = (s, []).
Proof.
  induction s as [|c s IH]; simpl; [reflexivity|].
  rewrite andb_true_iff. intros [Hc Hs]. rewrite Hc, (IH Hs). reflexivity.
Qed.

Lemma span_trimStart (s : jsstring) : snd (span is_space s) = trimStart s.
Proof.
  induction s as [|c s IH]; simpl; [reflexivity|].
  destruct (is_space c); [|reflexivity].
  destruct (span is_space s); simpl in *. assumption.
Qed.

(** A [+] that ends the pattern takes the whole run. *)
Lemma greedy_open (p : char16 -> bool) (s : jsstring) :
  greedy p (finish false) s =
  match s with
  | c :: s' =>
      if p c then Some ([c :: fst (span p s')], snd (span p s')) else None
  | [] => None
  end.
Proof.
  induction s as [|c s IH]; [reflexivity|].
  cbn [greedy]. destruct (p c); [|reflexivity].
  rewrite IH. destruct s as [|d s']; [reflexivity|].
  cbn [span]. destruct (p d); [|reflexivity].
  destruct (span p s'); reflexivity.
Qed.

(** A [+] over a run that the rest of the pattern cannot shorten. *)
Lemma greedy_run (p : char16 -> bool) (k : jsstring -> match_result)
      (run rest : jsstring) (caps : list jsstring) (r : jsstring) :
  run <> [] -> forallb p run = true ->
  greedy p k rest = None -> k rest = Some (caps, r) ->
  greedy p k (run ++ rest) = Some (run :: caps, r).
Proof.
  intros Hne Hall Hstop Hk.
  induction run as [|c run IH]; [congruence|].
  simpl in Hall. apply andb_true_iff in Hall as [Hc Hall].
  cbn [app greedy]. rewrite Hc.
  destruct run as [|d run'].
  - cbn [app]. rewrite Hstop, Hk. reflexivity.
  - rewrite IH by (congruence || assumption). reflexivity.
Qed.

(** What a successful [+] matched. *)
Lemma greedy_inv (p : char16 -> bool) (k : jsstring -> match_result)
      (s : jsstring) (caps : list jsstring) (r : jsstring) :
  greedy p k s = Some (caps, r) ->
  exists run rest caps',
    s = run ++ rest /\ run <> [] /\ forallb p run = true
    /\ k rest = Some (caps', r) /\ caps = run :: caps'.
Proof.
  revert caps r. induction s as [|c s IH]; intros caps r; [discriminate|].
  cbn [greedy]. destruct (p c) eqn:Hc; [|discriminate].
  destruct (greedy p k s) as [[[|cap caps0] r0]|] eqn:Hg.
  - destruct (k s) as [[caps1 r1]|] eqn:Hk; [|discriminate].
    intros [= <- <-]. exists [c], s, caps1. simpl. rewrite Hc.
    repeat split; congruence.
  - intros [= <- <-].
    destruct (IH _ _ eq_refl) as (run & rest & caps' & -> & Hne & Hall & Hk & E).
    injection E as -> ->.
    exists (c :: run), rest, caps'. simpl. rewrite Hc, Hall.
    repeat split; congruence.
  - destruct (k s) as [[caps1 r1]|] eqn:Hk; [|discriminate].
    intros [= <- <-]. exists [c], s, caps1. simpl. rewrite Hc.
    repeat split; congruence.
Qed.

Lemma greedy_stops (p : char16 -> bool) (k : jsstring -> match_result)
      (s : jsstring) :
  match s with c :: _ => p c = false | [] => True end ->
  greedy p k s = None.
Proof. destruct s as [|c s]; simpl; [reflexivity|]. now intros ->. Qed.

(** A [+] that must reach the end of the input. *)
Lemma greedy_closed (p : char16 -> bool) (s : jsstring) :
  s <> [] -> forallb p s = true -> greedy p (finish true) s = Some ([s], []).
Proof.
  intros Hne Hall.
  rewrite <- (app_nil_r s) at 1.
  apply greedy_run; auto.
Qed.

Lemma search_anchored (ats : list atom) (at_end : bool) (s : jsstring) :
  search (Regex true ats at_end) s =
  match match_atoms ats at_end s with
  | Some (caps, r) => Some ([], caps, r)
  | None => None
  end.
Proof. destruct s; reflexivity. Qed.

Lemma search_found (re : regex) (s r : jsstring) (caps : list jsstring) :
  match_atoms (atoms re) (to_end re) s = Some (caps, r) ->
  search re s = Some ([], caps, r).
Proof. intros H. destruct s; simpl; rewrite H; reflexivity. Qed.

(* ----------------------------------------------------------------- *)
(** ** Replacing the runs of whitespace *)

Lemma search_ws_nil : search whitespace_run [] = None.
Proof. reflexivity. Qed.

Lemma search_ws_cons (c : char16) (s : jsstring) :
  search whitespace_run (c :: s) =
  if is_space c
  then Some ([], [c :: fst (span is_space s)], trimStart s)
  else match search whitespace_run s with
       | Some (pre, caps, r) => Some (c :: pre, caps, r)
       | None => None
       end.
Proof.
  cbn [search whitespace_run atoms to_end from_start match_atoms qt cls].
  rewrite greedy_open. destruct (is_space c).
  - rewrite span_trimStart. reflexivity.
  - reflexivity.
Qed.

Lemma trimStart_length (s : jsstring) : length (trimStart s) <= length s.
Proof.
  induction s as [|c s IH]; simpl; [lia|].
  destruct (is_space c); simpl; lia.
Qed.

Lemma runs_replaced_in_run (t s : jsstring) :
  runs_replaced t true s = runs_replaced t false (trimStart s).
Proof.
  induction s as [|c s IH]; simpl; [reflexivity|].
  destruct (is_space c) eqn:Hc; [assumption|].
  simpl. rewrite Hc. reflexivity.
Qed.

(** The rounds of the global replacement do what [runs_replaced] says,
    and [S (length s)] of them are enough. *)
Lemma replace_rounds_ws (t : jsstring) (fuel : nat) :
  forall s, length s < fuel ->
            replace_rounds fuel whitespace_run [Lit t] s
            = runs_replaced t false s.
Proof.
  induction fuel as [|fuel IHf]; intros s Hlen; [lia|].
  induction s as [|c s IHs].
  - reflexivity.
  - cbn [replace_rounds]. rewrite search_ws_cons.
    cbn [runs_replaced]. destruct (is_space c) eqn:Hc.
    + cbn [app expand map concat]. rewrite app_nil_r.
      rewrite IHf by (pose proof (trimStart_length s); simpl in Hlen; lia).
      rewrite runs_replaced_in_run. reflexivity.
    + assert (Hs : length s < S fuel) by (simpl in Hlen; lia).
      specialize (IHs Hs). cbn [replace_rounds] in IHs.
      destruct (search whitespace_run s) as [[[pre caps] r]|].
      * cbn [app]. f_equal. exact IHs.
      * f_equal. exact IHs.
Qed.

Lemma replace_all_ws (t s : jsstring) :
  replace_all whitespace_run [Lit t] s = runs_replaced t false s.
Proof. apply replace_rounds_ws. lia. Qed.

Lemma runs_removed (b : bool) (s : jsstring) :
  runs_replaced [] b s = stripped s.
Proof.
  revert b. induction s as [|c s IH]; intros b; simpl; [reflexivity|].
  destruct (is_space c); simpl.
  - destruct b; apply IH.
  - f_equal. apply IH.
Qed.

Lemma noSpaces_stripped (input : jsstring) :
  replace_all whitespace_run [Lit []] input = stripped input.
Proof. rewrite replace_all_ws. apply runs_removed. Qed.

Lemma replaced_collapsed (input : jsstring) :
  replace_all whitespace_run [Lit (lit " ")] input = collapsed input.
Proof. apply replace_all_ws. Qed.

(* ----------------------------------------------------------------- *)
(** ** The course pattern and the professor pattern *)

Lemma digits_stop_letters (digits : jsstring) (k : jsstring -> match_result) :
  forallb is_digit digits = true -> greedy is_alpha k digits = None.
Proof.
  intros H. apply greedy_stops. destruct digits as [|d ds]; [exact I|].
  simpl in H. apply andb_true_iff in H as [Hd _].
  now apply digit_not_alpha.
Qed.

Lemma coursePattern_matches (s letters digits : jsstring) :
  course_shaped s letters digits -> test coursePattern s = true.
Proof.
  intros (-> & HL & HLa & HD & HDd).
  unfold test, coursePattern. rewrite search_anchored.
  cbn [match_atoms qt cls].
  rewrite (greedy_run is_alpha _ letters digits [digits] []); auto.
  - now apply digits_stop_letters.
  - now apply greedy_closed.
Qed.

Lemma coursePattern_inv (s : jsstring) :
  test coursePattern s = true ->
  exists letters digits, course_shaped s letters digits.
Proof.
  unfold test, coursePattern. rewrite search_anchored.
  cbn [match_atoms qt cls].
  destruct (greedy is_alpha (greedy is_digit (finish true)) s)
    as [[caps r]|] eqn:Hm; [intros _|discriminate].
  apply greedy_inv in Hm as (letters & rest & caps' & -> & HL & HLa & Hk & _).
  apply greedy_inv in Hk as (digits & rest' & caps'' & -> & HD & HDd & Hf & _).
  destruct rest'; [|discriminate].
  exists letters, digits. rewrite app_nil_r. repeat split; assumption.
Qed.

Lemma courseSplit_replace (s letters digits : jsstring) :
  course_shaped s letters digits ->
  replace courseSplit [Group 1; Lit (lit " "); Group 2] s
  = letters ++ lit " " ++ digits.
Proof.
  intros (-> & HL & HLa & HD & HDd).
  unfold replace.
  rewrite (search_found courseSplit (letters ++ digits) [] [letters; digits]).
  - cbn. rewrite !app_nil_r. reflexivity.
  - cbn [courseSplit atoms to_end match_atoms qt cls].
    apply greedy_run; auto; [now apply digits_stop_letters|].
    rewrite greedy_open. destruct digits as [|d ds]; [congruence|].
    pose proof HDd as Hall. simpl in HDd.
    apply andb_true_iff in HDd as [Hd Hds].
    rewrite Hd, (span_all _ _ Hds). reflexivity.
Qed.

Lemma professorPattern_matches (s name : jsstring) (g : char16) :
  name_with_g s name g -> test professorPattern s = true.
Proof.
  intros (-> & HP & HPa & Hg).
  unfold test, professorPattern. rewrite search_anchored.
  cbn [match_atoms qt cls].
  rewrite (greedy_run is_alpha _ name [g] [[g]] []); auto.
  - cbn [greedy once]. rewrite (g_is_alpha _ Hg). reflexivity.
  - cbn [once finish]. rewrite Hg. reflexivity.
Qed.

Lemma professorPattern_inv (s : jsstring) :
  test professorPattern s = true -> exists name g, name_with_g s name g.
Proof.
  unfold test, professorPattern. rewrite search_anchored.
  cbn [match_atoms qt cls].
  destruct (greedy is_alpha (once is_g (finish true)) s)
    as [[caps r]|] eqn:Hm; [intros _|discriminate].
  apply greedy_inv in Hm as (name & rest & caps' & -> & HP & HPa & Hk & _).
  destruct rest as [|g rest]; [discriminate|].
  cbn [once] in Hk. destruct (is_g g) eqn:Hg; [|discriminate].
  destruct rest; [|discriminate].
  exists name, g. repeat split; assumption.
Qed.

Lemma trailing_g_search (name : jsstring) (g : char16) :
  is_g g = true -> search trailing_g (name ++ [g]) = Some (name, [[g]], []).
Proof.
  intros Hg. induction name as [|c name IH].
  - cbn. rewrite Hg. reflexivity.
  - cbn [app search trailing_g atoms to_end from_start match_atoms qt cls]
      in *.
    assert (Hno : once is_g (finish true) (c :: name ++ [g]) = None).
    { cbn [once]. destruct (is_g c); [|reflexivity].
      destruct name; reflexivity. }
    rewrite Hno, IH. reflexivity.
Qed.

Lemma trailing_g_replace (s name : jsstring) (g : char16) :
  name_with_g s name g ->
  replace trailing_g [Lit (lit " g")] s = name ++ lit " g".
Proof.
  intros (-> & _ & _ & Hg). unfold replace.
  rewrite (trailing_g_search name g Hg). cbn. rewrite ?app_nil_r. reflexivity.
Qed.

(** A name of letters has no digit at its end. *)
Lemma name_not_course (s name : jsstring) (g : char16) :
  name_with_g s name g -> test coursePattern s = false.
Proof.
  intros (-> & _ & _ & Hg).
  destruct (test coursePattern (name ++ [g])) eqn:Ht; [|reflexivity].
  apply coursePattern_inv in Ht as (letters & digits & E & _ & _ & HD & HDd).
  destruct (exists_last HD) as (ds & d & ->).
  rewrite app_assoc in E. apply app_inj_tail in E as [_ <-].
  rewrite forallb_app in HDd. apply andb_true_iff in HDd as [_ Hd].
  simpl in Hd. rewrite (g_not_digit _ Hg) in Hd. discriminate.
Qed.

(* ----------------------------------------------------------------- *)
(** ** [normalizeSearchInput]: the three cases *)

Lemma normalize_course (input letters digits : jsstring) :
  course_shaped (stripped input) letters digits ->
  normalizeSearchInput input = letters ++ lit " " ++ digits.
Proof.
  intros H. unfold normalizeSearchInput.
  rewrite noSpaces_stripped, (coursePattern_matches _ _ _ H).
  now apply courseSplit_replace.
Qed.

Lemma normalize_name (input name : jsstring) (g : char16) :
  name_with_g (stripped input) name g ->
  normalizeSearchInput input = name ++ lit " g".
Proof.
  intros H. unfold normalizeSearchInput.
  rewrite noSpaces_stripped, (name_not_course _ _ _ H),
    (professorPattern_matches _ _ _ H).
  exact (trailing_g_replace _ _ _ H).
Qed.

Lemma normalize_other (input : jsstring) :
  test coursePattern (stripped input) = false ->
  test professorPattern (stripped input) = false ->
  normalizeSearchInput input = trim (collapsed input).
Proof.
  intros H1 H2. unfold normalizeSearchInput.
  rewrite noSpaces_stripped, H1, H2, replaced_collapsed. reflexivity.
Qed.

(* ----------------------------------------------------------------- *)
(** ** Stripping, collapsing and trimming *)

Lemma stripped_app (a b : jsstring) :
  stripped (a ++ b) = stripped a ++ stripped b.
Proof. apply filter_app. Qed.

Lemma stripped_rev (s : jsstring) : stripped (rev s) = rev (stripped s).
Proof.
  induction s as [|c s IH]; simpl; [reflexivity|].
  rewrite stripped_app, IH. simpl.
  destruct (is_space c); simpl; [apply app_nil_r | reflexivity].
Qed.

Lemma stripped_trimStart (s : jsstring) : stripped (trimStart s) = stripped s.
Proof.
  induction s as [|c s IH]; simpl; [reflexivity|].
  destruct (is_space c) eqn:Hc; simpl; [assumption|].
  rewrite Hc. reflexivity.
Qed.

Lemma stripped_trim (s : jsstring) : stripped (trim s) = stripped s.
Proof.
  unfold trim, trimEnd.
  rewrite stripped_rev, stripped_trimStart, stripped_rev, rev_involutive.
  apply stripped_trimStart.
Qed.

Lemma stripped_runs_replaced (b : bool) (s : jsstring) :
  stripped (runs_replaced [32%N] b s) = stripped s.
Proof.
  revert b. induction s as [|c s IH]; intros b; simpl; [reflexivity|].
  destruct (is_space c) eqn:Hc.
  - destruct b; [apply IH|]. simpl. apply IH.
  - simpl. rewrite Hc. simpl. f_equal. apply IH.
Qed.

Lemma stripped_collapsed (s : jsstring) : stripped (collapsed s) = stripped s.
Proof. apply stripped_runs_replaced. Qed.

Lemma trimStart_clean (s : jsstring) : starts_clean (trimStart s).
Proof.
  induction s as [|c s IH]; simpl; [exact I|].
  destruct (is_space c) eqn:Hc; [assumption|]. exact Hc.
Qed.

Lemma trimStart_fixed (s : jsstring) : starts_clean s -> trimStart s = s.
Proof. destruct s as [|c s]; simpl; [reflexivity|]. now intros ->. Qed.

Lemma trimStart_suffix (s : jsstring) : exists w, s = w ++ trimStart s.
Proof.
  induction s as [|c s [w IH]]; simpl.
  - now exists [].
  - destruct (is_space c).
    + exists (c :: w). simpl. now f_equal.
    + now exists [].
Qed.

Lemma trimEnd_prefix (s : jsstring) : exists w, s = trimEnd s ++ w.
Proof.
  unfold trimEnd. destruct (trimStart_suffix (rev s)) as [w E].
  exists (rev w). rewrite <- rev_app_distr, <- E. symmetry.
  apply rev_involutive.
Qed.

Lemma trimEnd_twice (s : jsstring) : trimEnd (trimEnd s) = trimEnd s.
Proof.
  unfold trimEnd. rewrite rev_involutive.
  rewrite (trimStart_fixed _ (trimStart_clean (rev s))). reflexivity.
Qed.

Lemma trimEnd_clean (s : jsstring) : starts_clean s -> starts_clean (trimEnd s).
Proof.
  intros H. destruct (trimEnd_prefix s) as [w E].
  destruct (trimEnd s) as [|c t]; [exact I|].
  rewrite E in H. exact H.
Qed.

Lemma trim_twice (s : jsstring) : trim (trim s) = trim s.
Proof.
  unfold trim.
  rewrite (trimStart_fixed _ (trimEnd_clean _ (trimStart_clean s))).
  apply trimEnd_twice.
Qed.

Lemma runs_replaced_clean (t s : jsstring) :
  starts_clean s -> runs_replaced t true s = runs_replaced t false s.
Proof. destruct s as [|c s]; simpl; [reflexivity|]. now intros ->. Qed.

Lemma tidy_fixed (s : jsstring) : tidy s = true -> collapsed s = s.
Proof.
  unfold collapsed. induction s as [|c s IH]; simpl; [reflexivity|].
  rewrite andb_true_iff. intros [Hc Hs].
  destruct (is_space c).
  - apply andb_true_iff in Hc as [Hc Hnext].
    apply N.eqb_eq in Hc as ->. simpl. f_equal.
    rewrite runs_replaced_clean; [now apply IH|].
    destruct s as [|d s']; [exact I|].
    now apply negb_true_iff in Hnext.
  - f_equal. now apply IH.
Qed.

Lemma runs_replaced_tidy (b : bool) (s : jsstring) :
  tidy (runs_replaced [32%N] b s) = true
  /\ (b = true -> starts_clean (runs_replaced [32%N] b s)).
Proof.
  revert b. induction s as [|c s IH]; intros b; simpl.
  - split; [reflexivity | intros _; exact I].
  - destruct (is_space c) eqn:Hc.
    + destruct (IH true) as [Ht Hclean]. specialize (Hclean eq_refl).
      destruct b; [split; [assumption | intros _; assumption]|].
      split; [|discriminate].
      simpl. rewrite Ht, andb_true_r.
      destruct (runs_replaced [32%N] true s) as [|d s']; [reflexivity|].
      simpl in Hclean. rewrite Hclean. reflexivity.
    + destruct (IH false) as [Ht _]. split.
      * simpl. rewrite Hc. exact Ht.
      * intros _. simpl. exact Hc.
Qed.

Lemma collapsed_tidy (s : jsstring) : tidy (collapsed s) = true.
Proof. apply runs_replaced_tidy. Qed.

Lemma tidy_app_r (a b : jsstring) : tidy (a ++ b) = true -> tidy b = true.
Proof.
  induction a as [|c a IH]; simpl; [trivial|].
  rewrite andb_true_iff. intros [_ H]. now apply IH.
Qed.

Lemma tidy_app_l (a b : jsstring) : tidy (a ++ b) = true -> tidy a = true.
Proof.
  induction a as [|c a IH]; simpl; [trivial|].
  rewrite !andb_true_iff. intros [Hc H]. split; [|now apply IH].
  destruct (is_space c); [|reflexivity].
  apply andb_true_iff in Hc as [Hc Hnext].
  rewrite Hc. simpl. destruct a as [|d a']; [reflexivity|]. exact Hnext.
Qed.

Lemma tidy_trim (s : jsstring) : tidy s = true -> tidy (trim s) = true.
Proof.
  intros H. unfold trim.
  destruct (trimStart_suffix s) as [w Ew].
  destruct (trimEnd_prefix (trimStart s)) as [v Ev].
  rewrite Ew in H. apply tidy_app_r in H.
  rewrite Ev in H. now apply tidy_app_l in H.
Qed.

Lemma collapse_trim_twice (s : jsstring) :
  trim (collapsed (trim (collapsed s))) = trim (collapsed s).
Proof.
  rewrite (tidy_fixed _ (tidy_trim _ (collapsed_tidy s))).
  apply trim_twice.
Qed.

(* ----------------------------------------------------------------- *)
(** ** [normalizeSearchInput]: the theorems *)

Example normalize_cse1310 :
  normalizeSearchInput (lit "cse1310") = lit "cse 1310".
Proof. vm_compute. reflexivity. Qed.

Example normalize_spaced :
  normalizeSearchInput (lit "  a   b ") = lit "a b".
Proof. vm_compute. reflexivity. Qed.

Example normalize_marnimg :
  normalizeSearchInput (lit "marnimg") = lit "marnim g".
Proof. vm_compute. reflexivity. Qed.

Example normalize_spaced_course :
  normalizeSearchInput (lit " CsE  13 10 ") = lit "CsE 1310".
Proof. vm_compute. reflexivity. Qed.

Example normalize_capital_G :
  normalizeSearchInput (lit "marnim G") = lit "marnim g".
Proof. vm_compute. reflexivity. Qed.

(** C4.  When the input without its whitespace is some letters followed by
    some digits (it matches [^[A-Za-z]+\d+$]), [normalizeSearchInput]
    returns those letters, one space and those digits; the letters are the
    ones of the input, in their case. *)
Theorem normalize_course_code (input letters digits : jsstring) :
  stripped input = letters ++ digits ->
  letters <> [] -> forallb is_alpha letters = true ->
  digits <> [] -> forallb is_digit digits = true ->
  normalizeSearchInput input = letters ++ lit " " ++ digits.
Proof.
  intros E HL HLa HD HDd. apply normalize_course.
  repeat split; assumption.
Qed.

Lemma normalize_course_code_witness :
  normalizeSearchInput (lit "cse1310") = lit "cse" ++ lit " " ++ lit "1310".
Proof.
  apply (normalize_course_code (lit "cse1310") (lit "cse") (lit "1310")).
  - reflexivity.
  - discriminate.
  - reflexivity.
  - discriminate.
  - reflexivity.
Defined.

(** C5.  [normalizeSearchInput] is idempotent. *)
Theorem normalize_idempotent (x : jsstring) :
  normalizeSearchInput (normalizeSearchInput x) = normalizeSearchInput x.
Proof.
  destruct (test coursePattern (stripped x)) eqn:H1.
  - apply coursePattern_inv in H1 as (letters & digits & H).
    rewrite (normalize_course _ _ _ H). apply normalize_course.
    destruct H as (_ & HL & HLa & HD & HDd). repeat split; auto.
    rewrite !stripped_app.
    rewrite (all_no_space is_alpha letters alpha_not_space HLa).
    rewrite (all_no_space is_digit digits digit_not_space HDd).
    reflexivity.
  - destruct (test professorPattern (stripped x)) eqn:H2.
    + apply professorPattern_inv in H2 as (name & g & H).
      rewrite (normalize_name _ _ _ H).
      apply (normalize_name _ name 103%N).
      destruct H as (_ & HP & HPa & _). repeat split; auto.
      rewrite stripped_app.
      rewrite (all_no_space is_alpha name alpha_not_space HPa).
      reflexivity.
    + rewrite (normalize_other _ H1 H2).
      rewrite normalize_other.
      * apply collapse_trim_twice.
      * rewrite stripped_trim, stripped_collapsed. assumption.
      * rewrite stripped_trim, stripped_collapsed. assumption.
Qed.

(* ----------------------------------------------------------------- *)
(** ** Values and their equality *)

Lemma eqb_eq (a b : jsstring) : eqb a b = true <-> a = b.
Proof.
  revert b. induction a as [|x a IH]; intros [|y b]; simpl;
    try (split; (reflexivity || discriminate)).
  rewrite andb_true_iff, N.eqb_eq, IH. split.
  - intros [-> ->]. reflexivity.
  - intros [= -> ->]. split; reflexivity.
Qed.

Lemma eqb_refl (a : jsstring) : eqb a a = true.
Proof. now apply eqb_eq. Qed.

Lemma strict_eq_eq (a b : JsVal) : strict_eq a b = true <-> a = b.
Proof.
  destruct a, b; simpl; try (split; (reflexivity || discriminate)).
  - rewrite Bool.eqb_true_iff. split; [intros ->; reflexivity | now intros [=]].
  - rewrite Z.eqb_eq. split; [intros ->; reflexivity | now intros [=]].
  - rewrite eqb_eq. split; [intros ->; reflexivity | now intros [=]].
Qed.

Lemma strict_eq_dec (a b : JsVal) :
  strict_eq a b = if JsVal_eq_dec a b then true else false.
Proof.
  destruct (JsVal_eq_dec a b) as [E|E].
  - now apply strict_eq_eq.
  - destruct (strict_eq a b) eqn:H; [|reflexivity].
    now apply strict_eq_eq in H.
Qed.

(* ----------------------------------------------------------------- *)
(** ** Keeping the first element of every key

    The page removes duplicates twice, with [new Set] and with the
    [reduce] of [finalFilteredCourses]; both walk the list and append an
    element to the result unless its key is there. *)

Section FirstPerKey.

Variables (A K : Type) (key : A -> K) (same : K -> K -> bool).

Hypothesis same_eq : forall a b, same a b = true <-> a = b.

Let seen (unique : list A) (item : A) : bool :=
  existsb (fun c => same (key c) (key item)) unique.

Let add (unique : list A) (item : A) : list A :=
  if seen unique item then unique else unique ++ [item].

Lemma same_refl (a : K) : same a a = true.
Proof. now apply same_eq. Qed.

Lemma same_sym (a b : K) : same a b = same b a.
Proof.
  destruct (same a b) eqn:H1, (same b a) eqn:H2; try reflexivity.
  - apply same_eq in H1. subst. now rewrite same_refl in H2.
  - apply same_eq in H2. subst. now rewrite same_refl in H1.
Qed.

Lemma seen_same (unique : list A) (x y : A) :
  same (key y) (key x) = true -> seen unique y = seen unique x.
Proof.
  intros H. apply same_eq in H. unfold seen. now rewrite H.
Qed.

Lemma unseen_filter_seen (unique l : list A) (x : A) :
  seen unique x = true ->
  filter (fun y => negb (seen unique y))
         (filter (fun y => negb (same (key y) (key x))) l)
  = filter (fun y => negb (seen unique y)) l.
Proof.
  intros Hx. induction l as [|y l IH]; simpl; [reflexivity|].
  destruct (same (key y) (key x)) eqn:Hy; simpl.
  - rewrite (seen_same unique x y Hy), Hx. simpl. exact IH.
  - destruct (seen unique y); simpl; now rewrite IH.
Qed.

Lemma unseen_filter_added (unique l : list A) (x : A) :
  filter (fun y => negb (seen (unique ++ [x]) y)) l
  = filter (fun y => negb (seen unique y))
           (filter (fun y => negb (same (key y) (key x))) l).
Proof.
  induction l as [|y l IH]; simpl; [reflexivity|].
  unfold seen at 1. rewrite existsb_app. simpl. rewrite orb_false_r.
  fold (seen unique y). rewrite (same_sym (key x) (key y)).
  destruct (same (key y) (key x)); simpl.
  - rewrite orb_true_r. simpl. exact IH.
  - rewrite orb_false_r. destruct (seen unique y); simpl; now rewrite IH.
Qed.

Lemma fold_add (l unique : list A) :
  fold_left add l unique
  = unique ++ filter (fun y => negb (seen unique y))
                     (first_per_key key same l).
Proof.
  revert unique. induction l as [|x l IH]; intros unique; simpl.
  - now rewrite app_nil_r.
  - rewrite IH. unfold add. destruct (seen unique x) eqn:Hx; simpl.
    + now rewrite unseen_filter_seen.
    + rewrite <- app_assoc. simpl. now rewrite unseen_filter_added.
Qed.

(** The loop computes [first_per_key]. *)
Lemma fold_first_per_key (l : list A) :
  fold_left
    (fun unique item =>
       if existsb (fun c => same (key c) (key item)) unique
       then unique else unique ++ [item]) l []
  = first_per_key key same l.
Proof.
  change (fold_left add l [] = first_per_key key same l).
  rewrite fold_add. simpl.
  induction (first_per_key key same l) as [|y r IH]; simpl; congruence.
Qed.

Lemma first_per_key_In (l : list A) (x : A) :
  In x (first_per_key key same l) -> In x l.
Proof.
  induction l as [|y l IH]; simpl; [trivial|].
  intros [E|H]; [now left|].
  apply filter_In in H as [H _]. right. now apply IH.
Qed.

(** No key occurs twice in the result. *)
Lemma first_per_key_NoDup (l : list A) :
  NoDup (map key (first_per_key key same l)).
Proof.
  induction l as [|x l IH]; simpl; constructor.
  - intros H. apply in_map_iff in H as (y & E & Hy).
    apply filter_In in Hy as [_ Hy].
    rewrite E, same_refl in Hy. discriminate.
  - clear - IH. induction (first_per_key key same l) as [|y r IHr];
      simpl; [constructor|].
    inversion IH as [|? ? Hnot Hr]; subst.
    destruct (negb (same (key y) (key x))); simpl; [|now apply IHr].
    constructor; [|now apply IHr].
    intros H. apply Hnot. apply in_map_iff in H as (z & E & Hz).
    apply filter_In in Hz as [Hz _]. apply in_map_iff. now exists z.
Qed.

(** Every key of the list is in the result. *)
Lemma first_per_key_complete (l : list A) (x : A) :
  In x l -> In (key x) (map key (first_per_key key same l)).
Proof.
  induction l as [|y l IH]; simpl; [trivial|].
  intros [->|H]; [now left|].
  destruct (same (key x) (key y)) eqn:E.
  - left. symmetry. now apply same_eq.
  - right. apply IH in H. apply in_map_iff in H as (z & Ez & Hz).
    apply in_map_iff. exists z. split; [assumption|].
    apply filter_In. split; [assumption|]. now rewrite Ez, E.
Qed.

(** An element of the result is the first of its key in the list. *)
Lemma first_per_key_first (l : list A) (x : A) :
  In x (first_per_key key same l) ->
  exists before after,
    l = before ++ x :: after
    /\ forall y, In y before -> key y <> key x.
Proof.
  induction l as [|z l IH]; simpl; [contradiction|].
  intros [->|H].
  - exists [], l. split; [reflexivity | contradiction].
  - apply filter_In in H as [H Hz].
    destruct (IH H) as (before & after & -> & Hb).
    exists (z :: before), after. split; [reflexivity|].
    intros y [<-|Hy]; [|now apply Hb].
    intros E. rewrite E, same_refl in Hz. discriminate.
Qed.

End FirstPerKey.

(* ----------------------------------------------------------------- *)
(** ** The derivations of the results page *)

Lemma new_Set_distinct (values : list JsVal) :
  new_Set values = distinct values.
Proof.
  unfold new_Set, distinct.
  rewrite <- (fold_first_per_key _ _ (fun v : JsVal => v) strict_eq strict_eq_eq).
  apply (f_equal (fun f => fold_left f values [])).
  unfold Set_add. reflexivity.
Qed.

Lemma distinct_NoDup (values : list JsVal) : NoDup (distinct values).
Proof.
  unfold distinct.
  rewrite <- (map_id (first_per_key _ _ _)).
  apply (first_per_key_NoDup _ _ (fun v : JsVal => v) strict_eq strict_eq_eq).
Qed.

Lemma distinct_In (values : list JsVal) (v : JsVal) :
  In v (distinct values) <-> In v values.
Proof.
  unfold distinct. split.
  - apply first_per_key_In.
  - intros H.
    apply (first_per_key_complete _ _ (fun v : JsVal => v) strict_eq strict_eq_eq)
      in H.
    now rewrite map_id in H.
Qed.

Lemma filteredCourses_taught_by (st : PageState) :
  filteredCourses st =
  if is_set (selectedProfessor st)
  then taught_by (selectedProfessor st) (courses st) else [].
Proof.
  unfold filteredCourses, is_set, taught_by.
  destruct (truthy (selectedProfessor st)); [|reflexivity].
  apply filter_ext. intros r. apply strict_eq_dec.
Qed.

Lemma filter_both (A : Type) (p q : A -> bool) (l : list A) :
  filter (fun x => p x && q x) l = filter q (filter p l).
Proof.
  induction l as [|x l IH]; simpl; [reflexivity|].
  destruct (p x); simpl; [|exact IH].
  destruct (q x); now rewrite IH.
Qed.

Lemma filter_all (A : Type) (l : list A) : filter (fun _ => true) l = l.
Proof. induction l as [|x l IH]; simpl; congruence. Qed.

(** The one filter of the page narrows by year and then by semester. *)
Lemma page_filter_narrowed (selYear selSemester : JsVal)
      (l : list SectionRecord) :
  filter
    (fun course =>
       let matchesYear :=
         if truthy selYear then strict_eq (year course) selYear else true in
       let matchesSemester :=
         if truthy selSemester
         then strict_eq (semester course) selSemester else true in
       matchesYear && matchesSemester) l
  = narrowed selYear selSemester l.
Proof.
  cbv zeta. rewrite filter_both. unfold narrowed, is_set.
  destruct (truthy selYear), (truthy selSemester);
    rewrite ?filter_all; reflexivity.
Qed.

(** The loop of [finalFilteredCourses] over the filtered list. *)
Lemma finalFiltered_narrowed_first (st : PageState) :
  finalFilteredCourses st
  = dedup_by_section
      (narrowed (selectedYear st) (selectedSemester st) (filteredCourses st)).
Proof.
  unfold finalFilteredCourses, dedup_by_section.
  rewrite page_filter_narrowed.
  apply (fold_first_per_key _ _ section_number strict_eq strict_eq_eq).
Qed.

(** C1.  [finalFilteredCourses] is the list of the selected professor,
    narrowed by the year when one is set and by the semester when one is
    set, and then deduplicated keeping the first record of every
    [section_number]; whatever the fetched list holds, no
    [section_number] occurs twice in it. *)
Theorem finalFilteredCourses_deduplicated (st : PageState) :
  finalFilteredCourses st
  = dedup_by_section
      (narrowed (selectedYear st) (selectedSemester st) (filteredCourses st))
  /\ NoDup (map section_number (finalFilteredCourses st)).
Proof.
  split; [apply finalFiltered_narrowed_first|].
  rewrite finalFiltered_narrowed_first.
  apply (first_per_key_NoDup _ _ section_number strict_eq strict_eq_eq).
Qed.

(** C7, as stated, fails: a professor of the list whose [instructor1] is
    the empty string can be clicked, and with that professor stored the
    record whose [instructor1] equals it is not in [filteredCourses]. *)
Lemma empty_name_is_not_filtered :
  In (JString []) (professors (page_of [unnamed] JNull JNull))
  /\ handleProfessorClick (JString []) (page_of [unnamed] JNull JNull)
     = page_of [unnamed] (JString []) JNull
  /\ In unnamed (courses (page_of [unnamed] (JString []) JNull))
  /\ instructor1 unnamed = selectedProfessor
                             (page_of [unnamed] (JString []) JNull)
  /\ filteredCourses (page_of [unnamed] (JString []) JNull) = [].
Proof.
  repeat split; simpl; auto.
Qed.

(** C7, as the code has it.  [professors] is the distinct [instructor1]
    values of all records in first-seen order; [filteredCourses] is
    exactly the records whose [instructor1] is the selected professor when
    that value is truthy, and empty when it is not ([null], with which the
    page starts, and also the empty string); [years] and [semesters] are
    the distinct [year] and [semester] values of [filteredCourses]. *)
Theorem derived_lists (st : PageState) :
  professors st = distinct (map instructor1 (courses st))
  /\ filteredCourses st
     = (if is_set (selectedProfessor st)
        then taught_by (selectedProfessor st) (courses st) else [])
  /\ years st = distinct (map year (filteredCourses st))
  /\ semesters st = distinct (map semester (filteredCourses st)).
Proof.
  unfold professors, years, semesters. rewrite !new_Set_distinct.
  repeat split. apply filteredCourses_taught_by.
Qed.

(** C9.  [handleProfessorClick(p)] selects [p], resets the year, the
    semester and the section to [null], and leaves the fetched list as it
    is. *)
Theorem handleProfessorClick_resets (p : JsVal) (st : PageState) :
  selectedProfessor (handleProfessorClick p st) = p
  /\ selectedYear (handleProfessorClick p st) = JNull
  /\ selectedSemester (handleProfessorClick p st) = JNull
  /\ selectedSection (handleProfessorClick p st) = None
  /\ courses (handleProfessorClick p st) = courses st
  /\ loading (handleProfessorClick p st) = loading st.
Proof. repeat split. Qed.

(* ----------------------------------------------------------------- *)
(** ** [split] and [join] *)

Lemma split_not_nil (sep : char16) (s : jsstring) : split sep s <> [].
Proof.
  destruct s as [|c s]; simpl; [discriminate|].
  destruct (c =? sep)%N; [discriminate|].
  destruct (split sep s); discriminate.
Qed.

(** No piece holds the separator. *)
Lemma split_pieces (sep : char16) (s : jsstring) :
  Forall (fun piece => ~ In sep piece) (split sep s).
Proof.
  induction s as [|c s IH]; simpl.
  - constructor; [intros [] | constructor].
  - destruct (N.eqb_spec c sep) as [->|Hc].
    + constructor; [intros [] | exact IH].
    + destruct (split sep s) as [|t ts] eqn:E;
        [now apply split_not_nil in E|].
      inversion IH as [|? ? Ht Hts]; subst.
      constructor; [|assumption].
      intros [Ec|H]; [congruence | now apply Ht].
Qed.

Lemma split_whole (sep : char16) (s : jsstring) :
  ~ In sep s -> split sep s = [s].
Proof.
  induction s as [|c s IH]; simpl; [reflexivity|].
  intros H. destruct (N.eqb_spec c sep) as [->|Hc].
  - destruct H. now left.
  - rewrite IH; [reflexivity|]. intros Hs. apply H. now right.
Qed.

Lemma split_at (sep : char16) (a b : jsstring) :
  ~ In sep a -> split sep (a ++ sep :: b) = a :: split sep b.
Proof.
  induction a as [|c a IH]; simpl.
  - intros _. now rewrite N.eqb_refl.
  - intros H. destruct (N.eqb_spec c sep) as [->|Hc].
    + destruct H. now left.
    + rewrite IH; [reflexivity|]. intros Ha. apply H. now right.
Qed.

(** The first two pieces, joined and split again, are the two pieces. *)
Lemma split_two (picked first second : jsstring) (others : list jsstring) :
  split 32%N picked = first :: second :: others ->
  courseSuggestion_of picked = first ++ lit " " ++ second
  /\ split 32%N (courseSuggestion_of picked) = [first; second].
Proof.
  intros E. unfold courseSuggestion_of. rewrite E.
  pose proof (split_pieces 32%N picked) as H. rewrite E in H.
  inversion H as [|? ? H1 H']; subst. inversion H' as [|? ? H2 _]; subst.
  split; [reflexivity|].
  change (join (lit " ") (slice0 2 (first :: second :: others)))
    with (first ++ 32%N :: second).
  rewrite split_at by assumption. now rewrite split_whole.
Qed.

(** A text without a space has one piece. *)
Lemma split_one (picked only : jsstring) :
  split 32%N picked = [only] ->
  split 32%N (courseSuggestion_of picked) = [only].
Proof.
  intros E. unfold courseSuggestion_of. rewrite E. simpl.
  pose proof (split_pieces 32%N picked) as H. rewrite E in H.
  inversion H; subst. now apply split_whole.
Qed.

(* ----------------------------------------------------------------- *)
(** ** [Number] on a string of digits *)

Lemma digits_trimStart (d : jsstring) :
  forallb is_digit d = true -> trimStart d = d.
Proof.
  destruct d as [|c d]; simpl; [reflexivity|].
  rewrite andb_true_iff. intros [Hc _].
  now rewrite (digit_not_space c Hc).
Qed.

Lemma forallb_reversed (p : char16 -> bool) (s : jsstring) :
  forallb p (rev s) = forallb p s.
Proof.
  induction s as [|c s IH]; simpl; [reflexivity|].
  rewrite forallb_app, IH. simpl. rewrite andb_true_r. apply andb_comm.
Qed.

Lemma digits_trim (d : jsstring) : forallb is_digit d = true -> trim d = d.
Proof.
  intros H. unfold trim, trimEnd. rewrite (digits_trimStart d H).
  rewrite digits_trimStart; [apply rev_involutive|].
  now rewrite forallb_reversed.
Qed.

Lemma digit_not_sign (c : char16) (d : jsstring) :
  is_digit c = true -> strip_sign (c :: d) = c :: d.
Proof.
  intros H. unfold strip_sign.
  assert (E : ((c =? 43) || (c =? 45))%N = false) by class_facts.
  now rewrite E.
Qed.

(** [Number] of a non-empty string of digits is a number. *)
Lemma digits_are_a_number (d : jsstring) :
  d <> [] -> forallb is_digit d = true -> isNaN_Number d = false.
Proof.
  intros Hne H. unfold isNaN_Number. rewrite (digits_trim d H).
  destruct d as [|c d]; [congruence|].
  pose proof H as Hall. simpl in H. apply andb_true_iff in H as [Hc _].
  rewrite (digit_not_sign c d Hc).
  unfold unsigned_decimal. rewrite (span_all is_digit (c :: d) Hall).
  simpl nonempty. now rewrite !orb_true_r.
Qed.

(* ----------------------------------------------------------------- *)
(** ** [handleSearch] *)

(** What a call of [handleSearch] does. *)
Lemma handleSearch_run (props : SearchBarProps) (picked : jsstring)
      (env : Env) (w : World) :
  handleSearch props picked env w =
  match encodeURIComponent (searched_value picked) with
  | Some value =>
      (inl tt,
       {| ui := ui (selected_world props picked w);
          trace := trace (selected_world props picked w)
                   ++ [router_push
                         (chosen_route (suggestions (ui w)) picked
                          ++ value)] |})
  | None => (inr URIError, selected_world props picked w)
  end.
Proof.
  unfold handleSearch, selected_world, reset_calls, chosen_route.
  unfold bind, get, perform, setSearchInput, setSuggestions, modify, ret.
  cbn [ui trace].
  destruct (negb (already_displayed props picked)), (resetState props);
    cbn [ui trace];
    destruct (find _ (suggestions (ui w)));
    unfold of_option;
    destruct (encodeURIComponent (searched_value picked));
    unfold ret, throw; cbn [ui trace];
    rewrite <- ?app_assoc; reflexivity.
Qed.

Lemma opt_eqb_eq (o : option jsstring) (s : jsstring) :
  opt_eqb o s = true <-> o = Some s.
Proof.
  destruct o as [c|]; simpl.
  - rewrite eqb_eq. split; [now intros -> | now intros [=]].
  - split; discriminate.
Qed.

Lemma is_route_eq (r : RouteType) (o : option RouteType) :
  is_route r o = true <-> o = Some r.
Proof.
  destruct o as [[]|], r; simpl; split; (reflexivity || discriminate).
Qed.

(** What the handler compares with the displayed course is the first two
    tokens of the selection. *)
Lemma courseSuggestion_tokens (picked tokens : jsstring) :
  first_two_tokens picked tokens <-> tokens = courseSuggestion_of picked.
Proof.
  unfold first_two_tokens, courseSuggestion_of.
  destruct (split 32%N picked) as [|first [|second others]] eqn:E.
  - now apply split_not_nil in E.
  - cbn [slice0 firstn join]. split.
    + intros [[= ->]|(a & b & o & D & _)]; [reflexivity | discriminate].
    + intros ->. now left.
  - change (join (lit " ") (slice0 2 (first :: second :: others)))
      with (first ++ lit " " ++ second).
    split.
    + intros [D|(a & b & o & [= <- <- _] & ->)]; [discriminate | reflexivity].
    + intros ->. right. now exists first, second, others.
Qed.

(** The guard of the reset says that the selection is displayed. *)
Lemma already_displayed_iff (props : SearchBarProps) (picked : jsstring) :
  already_displayed props picked = true <-> same_content props picked.
Proof.
  unfold already_displayed, same_content.
  rewrite orb_true_iff, !andb_true_iff, !opt_eqb_eq, !is_route_eq.
  split.
  - intros [[C R]|H]; [left | now right].
    exists (courseSuggestion_of picked). split; [|now split].
    now apply courseSuggestion_tokens.
  - intros [(tokens & T & C & R)|H]; [left | now right].
    apply courseSuggestion_tokens in T. subst tokens. now split.
Qed.

Lemma chosen_route_entry (rendered : list Suggestion) (picked : jsstring) :
  chosen_route rendered picked =
  if professor_entry_dec rendered picked
  then lit "/results?professor=" else lit "/results?course=".
Proof.
  unfold chosen_route.
  destruct (find _ rendered) as [s|] eqn:F.
  - apply find_some in F as [Hin Hs].
    apply andb_true_iff in Hs as [H1 H2].
    apply eqb_eq in H1, H2.
    destruct (professor_entry_dec rendered picked) as [_|No];
      [reflexivity|].
    destruct No. now exists s.
  - destruct (professor_entry_dec rendered picked) as [(s & Hin & H1 & H2)|_];
      [|reflexivity].
    pose proof (find_none _ _ F s Hin) as Hs. cbv beta in Hs.
    rewrite H1, H2, !eqb_refl in Hs. discriminate.
Qed.

(** C3.  A selection that is what the view displays (its first two
    space-separated tokens are the displayed course on a course route, or
    it is the displayed professor on a professor route) does not call
    [resetState]; any other selection calls it exactly once when the
    callback is supplied.  The tokens are those of [split], stated apart
    from the handler. *)
Theorem reset_only_for_new_content (props : SearchBarProps)
        (picked : jsstring) (env : Env) (w : World) :
  exists added,
    trace (snd (handleSearch props picked env w)) = trace w ++ added
    /\ resets added
       = if same_content_dec props picked then 0
         else if resetState props then 1 else 0.
Proof.
  rewrite handleSearch_run.
  assert (R : resets (console_log (course props) picked
                        :: reset_calls props picked)
              = if same_content_dec props picked then 0
                else if resetState props then 1 else 0).
  { unfold reset_calls.
    destruct (same_content_dec props picked) as [Y|N].
    - apply already_displayed_iff in Y. now rewrite Y.
    - destruct (already_displayed props picked) eqn:E.
      + now apply already_displayed_iff in E.
      + simpl. now destruct (resetState props). }
  destruct (encodeURIComponent (searched_value picked)) as [value|];
    cbn [snd trace selected_world].
  - eexists. rewrite <- app_assoc. split; [reflexivity|].
    unfold resets in *. rewrite filter_app, length_app, R. simpl. lia.
  - eexists. split; [reflexivity | exact R].
Qed.

(** C10, as stated, fails: the first suggestion of the list is a course
    whose text is a surrogate without its partner; no entry is a
    professor, yet selecting it navigates nowhere. *)
Lemma unencodable_selection_goes_nowhere :
  ~ professor_entry
      [{| suggestion := [55296%N]; type := lit "course" |}] [55296%N]
  /\ fst (handleSearch
            no_props [55296%N] quiet_env
            {| ui := {| searchInput := [];
                        suggestions := [{| suggestion := [55296%N];
                                           type := lit "course" |}];
                        isLoading := false |};
               trace := [] |})
     = inr URIError
  /\ pushed
       (trace
          (snd (handleSearch
                  no_props [55296%N] quiet_env
                  {| ui := {| searchInput := [];
                              suggestions := [{| suggestion := [55296%N];
                                                 type := lit "course" |}];
                              isLoading := false |};
                     trace := [] |})))
     = [].
Proof.
  split; [|split; reflexivity].
  intros (s & [<-|[]] & _ & T). discriminate.
Qed.

(** C10, as the code has it.  When the value can be encoded there is one
    navigation: to the professor route exactly when the rendered list
    holds an entry with the selected text and the type ["professor"], to
    the course route in every other case.  A value that
    [encodeURIComponent] refuses ends the handler with its [URIError]
    before any navigation. *)
Theorem route_by_professor_entry (props : SearchBarProps)
        (picked : jsstring) (env : Env) (w : World) :
  exists added,
    trace (snd (handleSearch props picked env w)) = trace w ++ added
    /\ match encodeURIComponent (searched_value picked) with
       | Some value =>
           fst (handleSearch props picked env w) = inl tt
           /\ pushed added
              = [(if professor_entry_dec (suggestions (ui w)) picked
                  then lit "/results?professor="
                  else lit "/results?course=") ++ value]
       | None =>
           fst (handleSearch props picked env w) = inr URIError
           /\ pushed added = []
       end.
Proof.
  rewrite handleSearch_run, <- chosen_route_entry.
  assert (P : pushed (console_log (course props) picked
                        :: reset_calls props picked) = []).
  { unfold reset_calls.
    destruct (negb (already_displayed props picked)), (resetState props);
      reflexivity. }
  assert (A : forall a b, pushed (a ++ b) = pushed a ++ pushed b).
  { intros a b. induction a as [|[] a IH]; simpl; congruence. }
  destruct (encodeURIComponent (searched_value picked)) as [value|];
    cbn [fst snd trace selected_world].
  - eexists. rewrite <- app_assoc. split; [reflexivity|].
    split; [reflexivity|]. rewrite A, P. reflexivity.
  - eexists. split; [reflexivity|]. split; [reflexivity | exact P].
Qed.

Lemma pushed_app (a b : list effect) : pushed (a ++ b) = pushed a ++ pushed b.
Proof. induction a as [|[] a IH]; simpl; congruence. Qed.

Lemma pushed_selected (props : SearchBarProps) (picked : jsstring) :
  pushed (console_log (course props) picked :: reset_calls props picked) = [].
Proof.
  unfold reset_calls.
  destruct (negb (already_displayed props picked)), (resetState props);
    reflexivity.
Qed.

Lemma searched_value_code (picked prefix number : jsstring)
      (others : list jsstring) :
  split 32%N picked = prefix :: number :: others ->
  length number = 4 -> forallb is_digit number = true ->
  searched_value picked = prefix ++ lit " " ++ number.
Proof.
  intros E Hlen Hd. unfold searched_value.
  destruct (split_two picked prefix number others E) as [_ ->].
  cbn [length nth Nat.leb]. rewrite Hlen, Nat.eqb_refl.
  rewrite digits_are_a_number; [reflexivity | | assumption].
  intros ->. discriminate.
Qed.

(** C8.  When the first two space-separated pieces of the selection are a
    prefix and a number of four digits, the value that goes into the route
    is exactly the prefix, one space and the number: the title that came
    with the suggestion is dropped.  The one navigation carries that value,
    encoded. *)
Theorem course_code_canonicalized (props : SearchBarProps)
        (picked prefix number : jsstring) (others : list jsstring)
        (env : Env) (w : World) :
  split 32%N picked = prefix :: number :: others ->
  length number = 4 -> forallb is_digit number = true ->
  searched_value picked = prefix ++ lit " " ++ number
  /\ exists added,
      trace (snd (handleSearch props picked env w)) = trace w ++ added
      /\ pushed added
         = match encodeURIComponent (prefix ++ lit " " ++ number) with
           | Some value =>
               [chosen_route (suggestions (ui w)) picked ++ value]
           | None => []
           end.
Proof.
  intros E Hlen Hd.
  pose proof (searched_value_code picked prefix number others E Hlen Hd) as V.
  split; [exact V|].
  rewrite handleSearch_run, V.
  destruct (encodeURIComponent (prefix ++ lit " " ++ number)) as [value|];
    cbn [snd trace selected_world].
  - eexists. rewrite <- app_assoc. split; [reflexivity|].
    rewrite pushed_app, pushed_selected. reflexivity.
  - eexists. split; [reflexivity | apply pushed_selected].
Qed.

Lemma course_code_canonicalized_witness :
  searched_value (lit "CSE 3320 OPERATING SYSTEMS") = lit "CSE 3320"
  /\ exists added,
      trace (snd (handleSearch no_props (lit "CSE 3320 OPERATING SYSTEMS")
                               quiet_env blank_world))
      = trace blank_world ++ added
      /\ pushed added = [lit "/results?course=CSE%203320"].
Proof.
  apply (course_code_canonicalized no_props
           (lit "CSE 3320 OPERATING SYSTEMS") (lit "CSE") (lit "3320")
           [lit "OPERATING"; lit "SYSTEMS"] quiet_env blank_world);
    reflexivity.
Defined.

(* ----------------------------------------------------------------- *)
(** ** The suggestion fetcher *)

(** What a dispatch with a non-empty input does. *)
Lemma dispatch_run (input : jsstring) (env : Env) (w : World) :
  input <> [] ->
  fetchSuggestions_body input env w =
  match request_of input with
  | None =>
      (inl tt,
       failed_world URIError
         {| ui := with_isLoading true (ui w); trace := trace w |})
  | Some url =>
      match settle_fetch env url (sending_world url w) with
      | (w1, None) => (inl tt, failed_world FetchRejected w1)
      | (w1, Some response) =>
          match settle_json env response w1 with
          | (w2, None) => (inl tt, failed_world JsonRejected w2)
          | (w2, Some data) => (inl tt, loaded_world data w2)
          end
      end
  end.
Proof.
  intros Hne. unfold fetchSuggestions_body, request_of.
  destruct input as [|c input]; [congruence|].
  cbn [length Nat.ltb Nat.leb].
  unfold try_catch_finally, finally, try_catch, bind, of_option, fetch, json.
  unfold setIsLoading, setSuggestions, perform, modify, ret, throw.
  cbn [ui trace].
  destruct (encodeURIComponent (normalizeSearchInput (c :: input)))
    as [query|]; cbn [option_map ui trace]; [|reflexivity].
  unfold sending_world.
  destruct (settle_fetch env _ _) as [w1 [response|]]; [|reflexivity].
  destruct (settle_json env response w1) as [w2 [data|]]; reflexivity.
Qed.

(** C6.  A dispatch with a non-empty input never ends with an exception
    and always ends with [isLoading] cleared; when its request fails (the
    fetch or the reading of the JSON body), the suggestion list is empty
    at the end and the last thing done was to log the error. *)
Theorem fetch_failure_contained (input : jsstring) (env : Env) (w : World) :
  input <> [] ->
  fst (fetchSuggestions_body input env w) = inl tt
  /\ isLoading (ui (snd (fetchSuggestions_body input env w))) = false
  /\ (request_fails env input w ->
      suggestions (ui (snd (fetchSuggestions_body input env w))) = []
      /\ exists e before,
          is_request_error e
          /\ trace (snd (fetchSuggestions_body input env w))
             = before
               ++ [console_error (lit "Error fetching suggestions:") e]).
Proof.
  intros Hne. rewrite (dispatch_run input env w Hne).
  unfold request_fails, is_request_error.
  destruct (request_of input) as [url|].
  - destruct (settle_fetch env url (sending_world url w))
      as [w1 [response|]].
    + destruct (settle_json env response w1) as [w2 [data|]];
        cbn [fst snd ui isLoading suggestions trace failed_world loaded_world];
        (split; [reflexivity|]); (split; [reflexivity|]); intros H.
      * discriminate.
      * split; [reflexivity|]. exists JsonRejected, (trace w2). auto.
    + cbn [fst snd ui isLoading suggestions trace failed_world].
      split; [reflexivity|]. split; [reflexivity|]. intros _.
      split; [reflexivity|]. exists FetchRejected, (trace w1). auto.
  - cbn [fst snd ui isLoading suggestions trace failed_world].
    split; [reflexivity|]. split; [reflexivity|]. contradiction.
Qed.

Lemma fetch_failure_contained_witness :
  fst (fetchSuggestions_body (lit "cse") quiet_env blank_world) = inl tt
  /\ isLoading (ui (snd (fetchSuggestions_body (lit "cse") quiet_env
                                               blank_world))) = false
  /\ suggestions (ui (snd (fetchSuggestions_body (lit "cse") quiet_env
                                                 blank_world))) = [].
Proof.
  assert (Hne : lit "cse" <> []) by discriminate.
  destruct (fetch_failure_contained (lit "cse") quiet_env blank_world Hne)
    as (Hres & Hload & Hfail).
  split; [exact Hres|]. split; [exact Hload|].
  apply Hfail. exact I.
Defined.

(** A successful request stores its data. *)
Lemma dispatch_loaded (input url : jsstring) (env : Env) (w w1 w2 : World)
      (response : Response) (data : list Suggestion) :
  input <> [] -> request_of input = Some url ->
  settle_fetch env url (sending_world url w) = (w1, Some response) ->
  settle_json env response w1 = (w2, Some data) ->
  fetchSuggestions_body input env w = (inl tt, loaded_world data w2).
Proof.
  intros Hne Hu Hf Hj. rewrite (dispatch_run input env w Hne), Hu, Hf, Hj.
  reflexivity.
Qed.

(** A dispatch with the empty input only empties the list. *)
Lemma dispatch_empty (env : Env) (w : World) :
  fetchSuggestions_body [] env w
  = (inl tt, {| ui := with_suggestions [] (ui w); trace := trace w |}).
Proof. reflexivity. Qed.

(** C2, as stated, fails: right after the input was emptied the suggestion
    that was shown is still in the list, and the call waits its 100 ms. *)
Lemma empty_input_waits :
  suggestions (ui (world (handleInputChange [] showing_one))) <> []
  /\ pending (handleInputChange [] showing_one) = Some ([], 100).
Proof. split; [discriminate | reflexivity]. Qed.

(** C2, as the code has it.  An empty input goes through the debounce like
    any other: the event leaves the suggestions as they are and starts the
    wait of 100 ms; while the wait lasts nothing changes; when it is over
    the list is emptied, without a request and without touching
    [isLoading]. *)
Theorem empty_input_clears_after_wait (env : Env) (c : Component) (dt : nat) :
  let typed := handleInputChange [] c in
  suggestions (ui (world typed)) = suggestions (ui (world c))
  /\ pending typed = Some ([], 100)
  /\ (dt < 100 -> world (elapse env dt typed) = world typed)
  /\ (100 <= dt ->
      suggestions (ui (world (elapse env dt typed))) = []
      /\ trace (world (elapse env dt typed)) = trace (world c)
      /\ isLoading (ui (world (elapse env dt typed)))
         = isLoading (ui (world c))
      /\ pending (elapse env dt typed) = None).
Proof.
  cbv zeta. unfold handleInputChange, debounced_call, elapse, debounce_wait.
  cbn [world pending ui suggestions with_searchInput].
  split; [reflexivity|]. split; [reflexivity|]. split.
  - intros H. apply Nat.ltb_lt in H. rewrite H. reflexivity.
  - intros H. apply Nat.ltb_ge in H. rewrite H.
    cbn [world pending]. rewrite dispatch_empty.
    cbn [snd ui trace suggestions isLoading with_suggestions].
    repeat split.
Qed.

Lemma empty_input_clears_after_wait_witness :
  world (elapse quiet_env 99 (handleInputChange [] showing_one))
  = world (handleInputChange [] showing_one)
  /\ suggestions
       (ui (world (elapse quiet_env 100 (handleInputChange [] showing_one))))
     = []
  /\ requests
       (trace (world (elapse quiet_env 100
                             (handleInputChange [] showing_one))))
     = [].
Proof.
  split.
  - apply (empty_input_clears_after_wait quiet_env showing_one 99). lia.
  - destruct (empty_input_clears_after_wait quiet_env showing_one 100)
      as (_ & _ & _ & Hdone).
    destruct (Hdone (Nat.le_refl 100)) as (Hs & Ht & _).
    split; [exact Hs | rewrite Ht; reflexivity].
Defined.

(* ----------------------------------------------------------------- *)
(** ** The scenarios of the specification *)

Example smith_years :
  years (page_of [smith_fall; smith_spring] (JString (lit "Smith")) JNull)
  = [JString (lit "2023"); JString (lit "2022")].
Proof. reflexivity. Qed.

Example smith_semesters :
  semesters (page_of [smith_fall; smith_spring] (JString (lit "Smith")) JNull)
  = [JString (lit "Fall"); JString (lit "Spring")].
Proof. reflexivity. Qed.

Example smith_2023 :
  finalFilteredCourses
    (page_of [smith_fall; smith_spring] (JString (lit "Smith"))
             (JString (lit "2023")))
  = [smith_fall].
Proof. reflexivity. Qed.

Example first_of_a_section_is_kept :
  finalFilteredCourses
    (page_of [smith_fall; smith_spring; smith_again]
             (JString (lit "Smith")) JNull)
  = [smith_fall; smith_spring].
Proof. reflexivity. Qed.

(** A year that the records hold as a number is not [===] to the string a
    [select] element gives. *)
Example numeric_year_and_its_text :
  strict_eq (JNumber 2023) (JString (lit "2023")) = false.
Proof. reflexivity. Qed.

(** A professor whose name is the empty string counts as no selection. *)
Example empty_name_is_no_selection :
  filteredCourses (page_of [unnamed] (JString []) JNull) = [].
Proof. reflexivity. Qed.

(** Keystrokes at 0, 20, 40 and 60 ms and then silence: one request, with
    the input of the last keystroke. *)
Example four_keystrokes_one_request :
  requests
    (trace (world
      (elapse answering_env 100
        (handleInputChange (lit "cse1")
          (elapse answering_env 20
            (handleInputChange (lit "cse")
              (elapse answering_env 20
                (handleInputChange (lit "cs")
                  (elapse answering_env 20
                    (handleInputChange (lit "c") mounted))))))))))
  = [lit "/api/courses/search?query=cse%201"].
Proof. vm_compute. reflexivity. Qed.

(** Unmounting while the wait lasts: the function never runs. *)
Example unmount_cancels :
  elapse answering_env 500 (unmount (handleInputChange (lit "cse") mounted))
  = unmount (handleInputChange (lit "cse") mounted).
Proof. reflexivity. Qed.

(** A selection with a surrogate that has no partner cannot be encoded. *)
Example lone_surrogate_throws :
  fst (handleSearch no_props [55296%N] quiet_env blank_world) = inr URIError.
Proof. reflexivity. Qed.

(* ----------------------------------------------------------------- *)
(** ** More on the derived lists *)

Lemma professors_NoDup (st : PageState) : NoDup (professors st).
Proof. unfold professors. rewrite new_Set_distinct. apply distinct_NoDup. Qed.

Lemma professors_In (st : PageState) (v : JsVal) :
  In v (professors st) <-> exists r, In r (courses st) /\ instructor1 r = v.
Proof.
  unfold professors. rewrite new_Set_distinct, distinct_In, in_map_iff.
  split; intros (r & H1 & H2); exists r; tauto.
Qed.

Lemma taught_by_In (p : JsVal) (l : list SectionRecord) (r : SectionRecord) :
  In r (taught_by p l) <-> In r l /\ instructor1 r = p.
Proof.
  unfold taught_by. rewrite filter_In.
  destruct (JsVal_eq_dec (instructor1 r) p); intuition congruence.
Qed.

(** A record that is kept is the first of its section in the narrowed
    list. *)
Lemma kept_record_is_first (st : PageState) (r : SectionRecord) :
  In r (finalFilteredCourses st) ->
  exists before after,
    narrowed (selectedYear st) (selectedSemester st) (filteredCourses st)
    = before ++ r :: after
    /\ forall r', In r' before -> section_number r' <> section_number r.
Proof.
  rewrite finalFiltered_narrowed_first.
  apply (first_per_key_first _ _ section_number strict_eq strict_eq_eq).
Qed.

(** Every section of the narrowed list is kept. *)
Lemma every_section_is_kept (st : PageState) (r : SectionRecord) :
  In r (narrowed (selectedYear st) (selectedSemester st)
                 (filteredCourses st)) ->
  In (section_number r) (map section_number (finalFilteredCourses st)).
Proof.
  rewrite finalFiltered_narrowed_first.
  apply (first_per_key_complete _ _ section_number strict_eq strict_eq_eq).
Qed.

(* ----------------------------------------------------------------- *)
(** ** More scenarios of the search bar *)

(** Selecting the course that is displayed: no reset, one navigation. *)
Example reselecting_cse3320 :
  trace (snd (handleSearch on_cse3320 (lit "CSE 3320 OPERATING SYSTEMS")
                           quiet_env blank_world))
  = [console_log (Some (lit "CSE 3320")) (lit "CSE 3320 OPERATING SYSTEMS");
     router_push (lit "/results?course=CSE%203320")].
Proof. vm_compute. reflexivity. Qed.

(** Selecting another course: one reset, then the navigation. *)
Example selecting_cse1310 :
  trace (snd (handleSearch on_cse3320 (lit "CSE 1310 INTRO TO PROGRAMMING")
                           quiet_env blank_world))
  = [console_log (Some (lit "CSE 3320"))
                 (lit "CSE 1310 INTRO TO PROGRAMMING");
     call_resetState;
     router_push (lit "/results?course=CSE%201310")].
Proof. vm_compute. reflexivity. Qed.

(** A professor of the rendered list goes to the professor route. *)
Example selecting_a_professor :
  pushed
    (trace (snd (handleSearch on_cse3320 (lit "John Smith") quiet_env
                   {| ui := {| searchInput := lit "john";
                               suggestions :=
                                 [Suggestion_of "John Smith" "professor"];
                               isLoading := false |};
                      trace := [] |})))
  = [lit "/results?professor=John%20Smith"].
Proof. vm_compute. reflexivity. Qed.

(** The same text without an entry in the list goes to the course route. *)
Example selecting_an_unknown_text :
  pushed (trace (snd (handleSearch on_cse3320 (lit "John Smith") quiet_env
                                   blank_world)))
  = [lit "/results?course=John%20Smith"].
Proof. vm_compute. reflexivity. Qed.

(** Inputs that are neither a course code nor a name ending in [g]. *)
Example normalize_mixed :
  normalizeSearchInput (lit " a1  b2 ") = lit "a1 b2".
Proof. vm_compute. reflexivity. Qed.

Example normalize_single_g : normalizeSearchInput (lit " g ") = lit "g".
Proof. vm_compute. reflexivity. Qed.

Example normalize_blank : normalizeSearchInput (lit "   ") = [].
Proof. vm_compute. reflexivity. Qed.

(** The test on the second piece is [Number], which also takes text that is
    not four digits. *)
Example exponent_as_a_number :
  searched_value (lit "PHYS 1e10 WAVES") = lit "PHYS 1e10".
Proof. vm_compute. reflexivity. Qed.

(* ================================================================= *)
(** * Further properties *)

Import SearchBarView ResultsPageView Notions.

(* ----------------------------------------------------------------- *)
(** ** [normalizeSearchInput]: the other two branches, and what every
    result looks like *)

Lemma not_course_shaped (s : jsstring) :
  (forall letters digits, ~ course_shaped s letters digits) ->
  test coursePattern s = false.
Proof.
  intros H. destruct (test coursePattern s) eqn:E; [|reflexivity].
  apply coursePattern_inv in E as (letters & digits & E).
  now destruct (H letters digits).
Qed.

Lemma not_name_with_g (s : jsstring) :
  (forall name g, ~ name_with_g s name g) ->
  test professorPattern s = false.
Proof.
  intros H. destruct (test professorPattern s) eqn:E; [|reflexivity].
  apply professorPattern_inv in E as (name & g & E).
  now destruct (H name g).
Qed.

(** X1.  When the input without its whitespace is two or more letters of
    which the last is [g] or [G], the result is the letters before it, a
    space and a lower-case [g]: the final letter is split off whatever the
    word is, and a capital [G] comes back in lower case. *)
Theorem normalize_splits_final_g (input name : jsstring) (g : char16) :
  stripped input = name ++ [g] ->
  name <> [] -> forallb is_alpha name = true -> is_g g = true ->
  normalizeSearchInput input = name ++ lit " g".
Proof.
  intros E Hne Ha Hg. apply (normalize_name input name g).
  repeat split; assumption.
Qed.

Lemma normalize_splits_final_g_witness :
  normalizeSearchInput (lit "Programmin G") = lit "Programmin g".
Proof.
  apply (normalize_splits_final_g (lit "Programmin G") (lit "Programmin")
                                  71%N); reflexivity || discriminate.
Defined.

(** X2.  An input that is neither letters followed by digits nor letters
    ending in [g], once stripped, comes back with every run of whitespace
    collapsed to one space and the ends trimmed. *)
Theorem normalize_collapses_and_trims (input : jsstring) :
  (forall letters digits, ~ course_shaped (stripped input) letters digits) ->
  (forall name g, ~ name_with_g (stripped input) name g) ->
  normalizeSearchInput input = trim (collapsed input).
Proof.
  intros H1 H2. apply normalize_other.
  - now apply not_course_shaped.
  - now apply not_name_with_g.
Qed.

Lemma normalize_collapses_and_trims_witness :
  normalizeSearchInput (lit "  intro   to  c ")
  = trim (collapsed (lit "  intro   to  c ")).
Proof.
  apply normalize_collapses_and_trims.
  - intros letters digits H. apply coursePattern_matches in H.
    vm_compute in H. discriminate.
  - intros name g H. apply professorPattern_matches in H.
    vm_compute in H. discriminate.
Defined.

Lemma clean_tidy (p : char16 -> bool) (s : jsstring) :
  (forall c, p c = true -> is_space c = false) ->
  forallb p s = true -> tidy s = true.
Proof.
  intros Hp. induction s as [|c s IH]; simpl; [reflexivity|].
  rewrite andb_true_iff. intros [Hc Hs]. rewrite (Hp c Hc). now apply IH.
Qed.

Lemma tidy_two_words (a b : jsstring) :
  tidy a = true -> starts_clean (rev a) ->
  tidy b = true -> starts_clean b -> b <> [] ->
  tidy (a ++ 32%N :: b) = true.
Proof.
  intros Ha Hend Hb Hstart Hne. induction a as [|c a IH].
  - simpl. destruct b as [|d b]; [congruence|].
    simpl in Hstart. rewrite Hstart. simpl. exact Hb.
  - simpl in Ha. apply andb_true_iff in Ha as [Hc Ha].
    destruct a as [|d a'].
    + simpl in Hend. simpl. rewrite Hend. simpl.
      destruct b as [|e b]; [congruence|].
      simpl in Hstart. rewrite Hstart. simpl. exact Hb.
    + assert (Hend' : starts_clean (rev (d :: a'))).
      { simpl in Hend. simpl.
        destruct (rev a' ++ [d]) as [|x r] eqn:Er.
        - destruct (rev a'); discriminate.
        - exact Hend. }
      specialize (IH Ha Hend').
      change ((c :: d :: a') ++ 32%N :: b)
        with (c :: (d :: a') ++ 32%N :: b).
      cbn [tidy]. cbn [tidy] in IH. rewrite andb_true_iff. split.
      * cbn [app]. destruct (is_space c); [|reflexivity]. exact Hc.
      * exact IH.
Qed.

Lemma clean_start (p : char16 -> bool) (s t : jsstring) :
  (forall c, p c = true -> is_space c = false) ->
  s <> [] -> forallb p s = true -> starts_clean (s ++ t).
Proof.
  intros Hp Hne H. destruct s as [|c s]; [congruence|].
  simpl in H. apply andb_true_iff in H as [Hc _]. simpl. now apply Hp.
Qed.

Lemma clean_end (p : char16 -> bool) (s : jsstring) :
  (forall c, p c = true -> is_space c = false) ->
  s <> [] -> forallb p s = true -> starts_clean (rev s).
Proof.
  intros Hp Hne H. rewrite <- (app_nil_r (rev s)).
  apply (clean_start p); [assumption | | now rewrite forallb_reversed].
  intros E. apply (f_equal (@rev char16)) in E.
  rewrite rev_involutive in E. simpl in E. congruence.
Qed.

Lemma trim_clean_end (s : jsstring) : starts_clean (rev (trim s)).
Proof.
  unfold trim, trimEnd. rewrite rev_involutive. apply trimStart_clean.
Qed.

(** X3.  Whatever the input, the result has no whitespace at its ends and
    none inside but single spaces. *)
Theorem normalize_well_spaced (input : jsstring) :
  well_spaced (normalizeSearchInput input).
Proof.
  unfold well_spaced.
  destruct (test coursePattern (stripped input)) eqn:H1.
  - apply coursePattern_inv in H1 as (letters & digits & H).
    rewrite (normalize_course _ _ _ H).
    destruct H as (_ & HL & HLa & HD & HDd).
    split; [|split].
    + apply tidy_two_words; auto.
      * now apply (clean_tidy is_alpha _ alpha_not_space).
      * now apply (clean_end is_alpha _ alpha_not_space).
      * now apply (clean_tidy is_digit _ digit_not_space).
      * rewrite <- (app_nil_r digits).
        now apply (clean_start is_digit _ _ digit_not_space).
    + now apply (clean_start is_alpha _ _ alpha_not_space).
    + change (letters ++ lit " " ++ digits)
        with (letters ++ [32%N] ++ digits).
      rewrite !rev_app_distr, <- app_assoc.
      apply (clean_start is_digit _ _ digit_not_space);
        [|now rewrite forallb_reversed].
      intros E. apply (f_equal (@rev char16)) in E.
      rewrite rev_involutive in E. simpl in E. congruence.
  - destruct (test professorPattern (stripped input)) eqn:H2.
    + apply professorPattern_inv in H2 as (name & g & H).
      rewrite (normalize_name _ _ _ H).
      destruct H as (_ & HP & HPa & _).
      split; [|split].
      * apply tidy_two_words; auto; try reflexivity; try discriminate.
        -- now apply (clean_tidy is_alpha _ alpha_not_space).
        -- now apply (clean_end is_alpha _ alpha_not_space).
      * now apply (clean_start is_alpha _ _ alpha_not_space).
      * change (name ++ lit " g") with (name ++ [32%N; 103%N]).
        rewrite rev_app_distr. reflexivity.
    + rewrite (normalize_other _ H1 H2).
      split; [|split].
      * apply tidy_trim, collapsed_tidy.
      * apply trimEnd_clean, trimStart_clean.
      * apply trim_clean_end.
Qed.


(* ----------------------------------------------------------------- *)
(** ** [split], [join] and the value of the route *)

Lemma join_more (sep p q : jsstring) (ps : list jsstring) :
  join sep (p :: q :: ps) = p ++ sep ++ join sep (q :: ps).
Proof. reflexivity. Qed.

(** Joining the pieces with the separator gives the text back. *)
Lemma join_split (sep : char16) (s : jsstring) :
  join [sep] (split sep s) = s.
Proof.
  induction s as [|c s IH]; [reflexivity|].
  cbn [split]. destruct (N.eqb_spec c sep) as [->|Hc].
  - destruct (split sep s) as [|t ts] eqn:E;
      [now apply split_not_nil in E|].
    rewrite join_more, IH. reflexivity.
  - destruct (split sep s) as [|t ts] eqn:E;
      [now apply split_not_nil in E|].
    destruct ts as [|u ts].
    + simpl in *. now rewrite IH.
    + rewrite <- IH. reflexivity.
Qed.

(** The first two pieces, joined, begin the text. *)
Lemma courseSuggestion_prefix (picked : jsstring) :
  exists rest, picked = courseSuggestion_of picked ++ rest.
Proof.
  unfold courseSuggestion_of.
  pose proof (join_split 32%N picked) as J.
  destruct (split 32%N picked) as [|p1 [|p2 others]] eqn:E.
  - now apply split_not_nil in E.
  - exists []. simpl in *. now rewrite app_nil_r.
  - change (join (lit " ") (slice0 2 (p1 :: p2 :: others)))
      with (p1 ++ 32%N :: p2).
    destruct others as [|p3 others].
    + exists []. rewrite app_nil_r. exact (eq_sym J).
    + exists (32%N :: join [32%N] (p3 :: others)).
      rewrite <- J, !join_more, <- app_assoc. reflexivity.
Qed.

(** The two ways [searched_value] ends. *)
Lemma searched_value_cases (picked : jsstring) :
  searched_value picked = picked
  \/ exists first second others,
      split 32%N picked = first :: second :: others
      /\ length second = 4 /\ isNaN_Number second = false
      /\ searched_value picked = first ++ lit " " ++ second.
Proof.
  unfold searched_value.
  destruct (split 32%N picked) as [|p1 [|p2 others]] eqn:E.
  - now apply split_not_nil in E.
  - rewrite (split_one picked p1 E). now left.
  - destruct (split_two picked p1 p2 others E) as [_ ->].
    cbn [length Nat.leb nth].
    destruct (Nat.eqb_spec (length p2) 4) as [Hlen|Hlen]; [|now left].
    destruct (isNaN_Number p2) eqn:Hnan; [now left|].
    right. exists p1, p2, others. auto.
Qed.

(** X5.  The value that goes into the route is the selected text itself or
    its first two space-separated pieces with a space between them; either
    way it is a beginning of the selected text. *)
Theorem searched_value_begins_selection (picked : jsstring) :
  (searched_value picked = picked
   \/ exists first second others,
       split 32%N picked = first :: second :: others
       /\ searched_value picked = first ++ lit " " ++ second)
  /\ exists rest, picked = searched_value picked ++ rest.
Proof.
  destruct (searched_value_cases picked)
    as [Same|(p1 & p2 & others & E & _ & _ & V)].
  - split; [now left|]. rewrite Same. exists []. now rewrite app_nil_r.
  - split; [right; now exists p1, p2, others|]. rewrite V.
    destruct (split_two picked p1 p2 others E) as [<- _].
    apply courseSuggestion_prefix.
Qed.

(** X6.  Cutting the selection is idempotent: the value of the route,
    selected again, gives itself. *)
Theorem searched_value_idempotent (picked : jsstring) :
  searched_value (searched_value picked) = searched_value picked.
Proof.
  destruct (searched_value_cases picked)
    as [Same|(p1 & p2 & others & E & Hlen & Hnan & ->)];
    [now rewrite !Same|].
  pose proof (split_pieces 32%N picked) as H. rewrite E in H.
  inversion H as [|? ? H1 H']; subst. inversion H' as [|? ? H2 _]; subst.
  assert (S : split 32%N (p1 ++ lit " " ++ p2) = [p1; p2]).
  { change (p1 ++ lit " " ++ p2) with (p1 ++ 32%N :: p2).
    rewrite split_at by assumption. now rewrite split_whole. }
  unfold searched_value.
  destruct (split_two _ p1 p2 [] S) as [_ ->].
  cbn [length Nat.leb nth]. now rewrite Hlen, Hnan.
Qed.

(* ----------------------------------------------------------------- *)
(** ** What [encodeURIComponent] lets through *)

Lemma hex_digit_unreserved (n : N) :
  (n < 16)%N -> is_unreserved (hex_digit n) = true.
Proof.
  intros H. unfold is_unreserved, hex_digit.
  destruct (N.ltb_spec n 10).
  - assert (E : is_digit (48 + n)%N = true) by class_facts.
    rewrite E. now rewrite orb_true_r.
  - assert (E : is_alpha (55 + n)%N = true) by class_facts.
    now rewrite E.
Qed.

Lemma percent_safe (byte : N) :
  (byte < 256)%N -> forallb is_uri_safe (percent byte) = true.
Proof.
  intros H. unfold percent, is_uri_safe. cbn [forallb].
  rewrite !hex_digit_unreserved.
  - reflexivity.
  - now apply N.mod_lt.
  - apply N.Div0.div_lt_upper_bound. lia.
Qed.

Lemma utf8_bytes (cp : N) :
  (cp < 1114112)%N -> Forall (fun b => (b < 256)%N) (utf8 cp).
Proof.
  intros H. unfold utf8.
  assert (M : forall a, (128 + a mod 64 < 256)%N).
  { intros a. pose proof (N.mod_lt a 64). lia. }
  destruct (N.ltb_spec cp 128); [repeat constructor; lia|].
  destruct (N.ltb_spec cp 2048).
  { repeat constructor; [|apply M].
    assert (cp / 64 < 32)%N by (apply N.Div0.div_lt_upper_bound; lia).
    lia. }
  destruct (N.ltb_spec cp 65536).
  { repeat constructor; try apply M.
    assert (cp / 4096 < 16)%N by (apply N.Div0.div_lt_upper_bound; lia).
    lia. }
  repeat constructor; try apply M.
  assert (cp / 262144 < 16)%N by (apply N.Div0.div_lt_upper_bound; lia).
  lia.
Qed.

Lemma escape_safe (cp : N) :
  (cp < 1114112)%N -> forallb is_uri_safe (escape cp) = true.
Proof.
  intros H. unfold escape.
  induction (utf8_bytes cp H) as [|b bs Hb _ IH]; [reflexivity|].
  cbn [map concat]. rewrite forallb_app, (percent_safe b Hb). exact IH.
Qed.

Lemma encode_step (c : char16) (r : jsstring) :
  encodeURIComponent (c :: r) =
  if is_unreserved c then option_map (cons c) (encodeURIComponent r)
  else if is_low_surrogate c then None
  else if is_high_surrogate c then
    match r with
    | d :: r' =>
        if is_low_surrogate d then
          option_map
            (app (escape (65536 + (c - 55296) * 1024 + (d - 56320))%N))
            (encodeURIComponent r')
        else None
    | [] => None
    end
  else option_map (app (escape c)) (encodeURIComponent r).
Proof. reflexivity. Qed.

Lemma encode_safe_bounded (n : nat) :
  forall s out,
    length s <= n -> utf16 s -> encodeURIComponent s = Some out ->
    forallb is_uri_safe out = true.
Proof.
  induction n as [|n IH]; intros s out Hlen Hs.
  - destruct s; [|simpl in Hlen; lia]. now intros [= <-].
  - destruct s as [|c r]; [now intros [= <-]|].
    inversion Hs as [|? ? Hc Hr]; subst.
    rewrite encode_step.
    destruct (is_unreserved c) eqn:Hu.
    + destruct (encodeURIComponent r) as [o|] eqn:Er; [|discriminate].
      intros [= <-]. cbn [forallb]. unfold is_uri_safe at 1. rewrite Hu.
      apply (IH r o); [simpl in Hlen; lia | assumption | assumption].
    + destruct (is_low_surrogate c) eqn:Hlow; [discriminate|].
      destruct (is_high_surrogate c) eqn:Hhigh.
      * destruct r as [|d r']; [discriminate|].
        destruct (is_low_surrogate d) eqn:Hd; [|discriminate].
        destruct (encodeURIComponent r') as [o|] eqn:Er; [|discriminate].
        assert (Hcp : (65536 + (c - 55296) * 1024 + (d - 56320) < 1114112)%N).
        { unfold is_high_surrogate, is_low_surrogate, in_range in Hhigh, Hd.
          rewrite !andb_true_iff, !N.leb_le in Hhigh, Hd. lia. }
        set (cp := (65536 + (c - 55296) * 1024 + (d - 56320))%N) in *.
        intros [= <-]. rewrite forallb_app.
        inversion Hr as [|? ? Hd' Hr']; subst.
        rewrite (IH r' o); [|simpl in Hlen; lia | assumption | assumption].
        now rewrite escape_safe.
      * destruct (encodeURIComponent r) as [o|] eqn:Er; [|discriminate].
        intros [= <-]. rewrite forallb_app.
        rewrite (IH r o); [|simpl in Hlen; lia | assumption | assumption].
        rewrite escape_safe; [reflexivity | lia].
Qed.

(** An encoded component holds unreserved code units and percent signs
    only. *)
Lemma encode_safe (s out : jsstring) :
  utf16 s -> encodeURIComponent s = Some out ->
  forallb is_uri_safe out = true.
Proof. apply (encode_safe_bounded (length s)). lia. Qed.

Lemma searched_value_utf16 (picked : jsstring) :
  utf16 picked -> utf16 (searched_value picked).
Proof.
  intros H. destruct (searched_value_cases picked)
    as [->|(p1 & p2 & others & E & _ & _ & V)]; [assumption|].
  destruct (split_two picked p1 p2 others E) as [C _].
  destruct (courseSuggestion_prefix picked) as [rest R].
  rewrite V, <- C. unfold utf16 in *. rewrite R in H.
  now apply Forall_app in H as [H _].
Qed.

Lemma chosen_route_either (rendered : list Suggestion) (picked : jsstring) :
  chosen_route rendered picked = lit "/results?professor="
  \/ chosen_route rendered picked = lit "/results?course=".
Proof. unfold chosen_route. destruct (find _ rendered); auto. Qed.

(** X7.  Every route a selection navigates to is one of the two result
    routes followed by unreserved code units and percent signs only: the
    selected text cannot put a second parameter, a fragment or a space
    into the route. *)
Theorem route_is_uri_safe (props : SearchBarProps) (picked : jsstring)
        (env : Env) (w : World) :
  utf16 picked ->
  exists added,
    trace (snd (handleSearch props picked env w)) = trace w ++ added
    /\ Forall
         (fun url =>
            exists value,
              (url = lit "/results?professor=" ++ value
               \/ url = lit "/results?course=" ++ value)
              /\ forallb is_uri_safe value = true)
         (pushed added).
Proof.
  intros H. rewrite handleSearch_run.
  destruct (encodeURIComponent (searched_value picked)) as [value|] eqn:E;
    cbn [snd trace selected_world].
  - eexists. rewrite <- app_assoc. split; [reflexivity|].
    rewrite pushed_app, pushed_selected. cbn [app pushed].
    constructor; [|constructor].
    exists value. split.
    + destruct (chosen_route_either (suggestions (ui w)) picked) as [->| ->];
        auto.
    + apply (encode_safe (searched_value picked)); [|assumption].
      now apply searched_value_utf16.
  - eexists. split; [reflexivity|]. rewrite pushed_selected. constructor.
Qed.

Lemma route_is_uri_safe_witness :
  exists added,
    trace (snd (handleSearch no_props (lit "C&C 1310 a=b#c") quiet_env
                             blank_world))
    = trace blank_world ++ added
    /\ Forall
         (fun url =>
            exists value,
              (url = lit "/results?professor=" ++ value
               \/ url = lit "/results?course=" ++ value)
              /\ forallb is_uri_safe value = true)
         (pushed added).
Proof.
  apply (route_is_uri_safe no_props (lit "C&C 1310 a=b#c") quiet_env
                           blank_world).
  unfold utf16. repeat constructor.
Defined.

(* ----------------------------------------------------------------- *)
(** ** The Enter key, and selecting what is displayed *)

Lemma find_first_professor (first : Suggestion) (rest : list Suggestion) :
  type first = lit "professor" ->
  chosen_route (first :: rest) (suggestion first) = lit "/results?professor=".
Proof.
  intros H. unfold chosen_route. cbn [find].
  now rewrite H, !eqb_refl.
Qed.

(** X8.  Enter selects the first stored suggestion, shown or hidden behind
    the loading box: when that one is a professor, the handler navigates
    once, to the professor route with its value, empties the list and puts
    its full text into the input. *)
Theorem enter_selects_first_suggestion (props : SearchBarProps) (env : Env)
        (w : World) (first : Suggestion) (rest : list Suggestion)
        (value : jsstring) :
  suggestions (ui w) = first :: rest ->
  type first = lit "professor" ->
  encodeURIComponent (searched_value (suggestion first)) = Some value ->
  fst (onKeyDown props (lit "Enter") env w) = inl tt
  /\ ui (snd (onKeyDown props (lit "Enter") env w))
     = {| searchInput := suggestion first;
          suggestions := [];
          isLoading := isLoading (ui w) |}
  /\ exists added,
      trace (snd (onKeyDown props (lit "Enter") env w)) = trace w ++ added
      /\ pushed added = [lit "/results?professor=" ++ value].
Proof.
  intros Hs Ht Hv.
  assert (R : onKeyDown props (lit "Enter") env w
              = handleSearch props (suggestion first) env w).
  { unfold onKeyDown, bind, get. cbn [ui]. rewrite Hs. reflexivity. }
  rewrite R, handleSearch_run, Hv, Hs, (find_first_professor first rest Ht).
  cbn [fst snd ui trace selected_world].
  split; [reflexivity|]. split; [reflexivity|].
  eexists. rewrite <- app_assoc. split; [reflexivity|].
  now rewrite pushed_app, pushed_selected.
Qed.

Lemma enter_selects_first_suggestion_witness :
  exists added,
    trace (snd (onKeyDown no_props (lit "Enter") quiet_env
                  {| ui := {| searchInput := lit "smi";
                              suggestions :=
                                [Suggestion_of "John Smith" "professor";
                                 Suggestion_of "CSE 1310" "course"];
                              isLoading := true |};
                     trace := [] |}))
    = [] ++ added
    /\ pushed added = [lit "/results?professor=John%20Smith"].
Proof.
  apply (enter_selects_first_suggestion no_props quiet_env
           {| ui := {| searchInput := lit "smi";
                       suggestions :=
                         [Suggestion_of "John Smith" "professor";
                          Suggestion_of "CSE 1310" "course"];
                       isLoading := true |};
              trace := [] |}
           (Suggestion_of "John Smith" "professor")
           [Suggestion_of "CSE 1310" "course"]
           (lit "John%20Smith")); reflexivity.
Defined.

Lemma chosen_route_course (rendered : list Suggestion) (picked : jsstring) :
  ~ professor_entry rendered picked ->
  chosen_route rendered picked = lit "/results?course=".
Proof.
  intros H. rewrite chosen_route_entry.
  now destruct (professor_entry_dec rendered picked).
Qed.

(** X9.  Selecting the course that is displayed, when its number has four
    digits and the text is not a professor of the list, calls no reset and
    navigates to the route of that very course. *)
Theorem reselecting_navigates_in_place (props : SearchBarProps)
        (picked prefix number shown value : jsstring)
        (others : list jsstring) (env : Env) (w : World) :
  course props = Some shown -> routeType props = Some course_route ->
  split 32%N picked = prefix :: number :: others ->
  shown = prefix ++ lit " " ++ number ->
  length number = 4 -> forallb is_digit number = true ->
  ~ professor_entry (suggestions (ui w)) picked ->
  encodeURIComponent shown = Some value ->
  exists added,
    trace (snd (handleSearch props picked env w)) = trace w ++ added
    /\ resets added = 0
    /\ pushed added = [lit "/results?course=" ++ value].
Proof.
  intros Hc Hr E -> Hlen Hd Hno Hv.
  rewrite handleSearch_run.
  rewrite (searched_value_code picked prefix number others E Hlen Hd), Hv.
  rewrite (chosen_route_course _ _ Hno).
  assert (Shown : already_displayed props picked = true).
  { apply already_displayed_iff. left.
    exists (prefix ++ lit " " ++ number). split; [|now split].
    right. now exists prefix, number, others. }
  cbn [snd trace selected_world]. unfold reset_calls. rewrite Shown.
  cbn [negb]. eexists. rewrite <- app_assoc. split; [reflexivity|].
  split; reflexivity.
Qed.

Lemma reselecting_navigates_in_place_witness :
  exists added,
    trace (snd (handleSearch on_cse3320 (lit "CSE 3320 OPERATING SYSTEMS")
                             quiet_env blank_world))
    = trace blank_world ++ added
    /\ resets added = 0
    /\ pushed added = [lit "/results?course=" ++ lit "CSE%203320"].
Proof.
  apply (reselecting_navigates_in_place on_cse3320
           (lit "CSE 3320 OPERATING SYSTEMS") (lit "CSE") (lit "3320")
           (lit "CSE 3320") (lit "CSE%203320")
           [lit "OPERATING"; lit "SYSTEMS"] quiet_env blank_world);
    try reflexivity.
  intros (s & [] & _).
Defined.

(** With a number of five digits the reset is held back all the same, but
    the route is the one of the full text. *)
Example five_digits_are_not_cut :
  trace (snd (handleSearch
                {| initialValue := [];
                   resetState := true;
                   course := Some (lit "CSE 33200");
                   professor := None;
                   routeType := Some course_route |}
                (lit "CSE 33200 SEMINAR") quiet_env blank_world))
  = [console_log (Some (lit "CSE 33200")) (lit "CSE 33200 SEMINAR");
     router_push (lit "/results?course=CSE%2033200%20SEMINAR")].
Proof. vm_compute. reflexivity. Qed.

(* ----------------------------------------------------------------- *)
(** ** Dispatches that overlap, bursts of typing, inputs without an
    encoding *)

(** X10.  Nothing ties a response to the input that is current: a dispatch
    whose answer arrives after a later dispatch has run from start to end
    puts its own, older data into the list, and clears [isLoading]. *)
Theorem older_answer_replaces_newer (older newer url : jsstring)
        (inner : Env) (data : list Suggestion) (w : World) :
  older <> [] -> request_of older = Some url ->
  suggestions
    (ui (snd (fetchSuggestions_body older (overtaken_by newer inner data) w)))
  = data
  /\ isLoading
       (ui (snd (fetchSuggestions_body older (overtaken_by newer inner data)
                                       w)))
     = false.
Proof.
  intros Hne Hu. rewrite (dispatch_run older _ w Hne), Hu.
  cbn [overtaken_by settle_fetch settle_json snd loaded_world ui
       suggestions isLoading].
  split; reflexivity.
Qed.

Lemma older_answer_replaces_newer_witness :
  suggestions
    (ui (snd (fetchSuggestions_body
                (lit "cs")
                (overtaken_by (lit "cse")
                   (answers_with [Suggestion_of "CSE 1310" "course"])
                   [Suggestion_of "CS 101" "course"])
                blank_world)))
  = [Suggestion_of "CS 101" "course"].
Proof.
  apply (older_answer_replaces_newer
           (lit "cs") (lit "cse") (lit "/api/courses/search?query=cs")
           (answers_with [Suggestion_of "CSE 1310" "course"])
           [Suggestion_of "CS 101" "course"] blank_world).
  - discriminate.
  - reflexivity.
Defined.

Lemma last_after (A : Type) (x d : A) (l : list A) :
  last (x :: l) d = last l x.
Proof.
  revert x d. induction l as [|y l IH]; intros x d; [reflexivity|].
  change (last (x :: y :: l) d) with (last (y :: l) d).
  rewrite (IH y d). symmetry. apply IH.
Qed.

(** The component while a burst goes on. *)
Lemma typing_goes_on (env : Env) (more : list (nat * jsstring)) :
  forall (c : Component) (typed : jsstring),
    Forall (fun next => fst next < 100) more ->
    pending c = Some (typed, 100) ->
    pending (fold_left (keystroke env) more c)
    = Some (last (map snd more) typed, 100)
    /\ world (fold_left (keystroke env) more c)
       = {| ui := with_searchInput (last (map snd more) (searchInput
                                                            (ui (world c))))
                                   (ui (world c));
            trace := trace (world c) |}.
Proof.
  induction more as [|[gap text] more IH]; intros c typed Hgaps Hp.
  - cbn [fold_left map last]. split; [assumption|].
    destruct c as [[[si su lo] tr] pe]. reflexivity.
  - inversion Hgaps as [|? ? Hgap Hrest]; subst. cbn [fst] in Hgap.
    cbn [fold_left map]. rewrite !last_after.
    assert (W : world (keystroke env c (gap, text))
                = {| ui := with_searchInput text (ui (world c));
                     trace := trace (world c) |}).
    { unfold keystroke, handleInputChange, debounced_call, elapse.
      cbn [fst snd]. rewrite Hp.
      apply Nat.ltb_lt in Hgap. rewrite Hgap. reflexivity. }
    destruct (IH (keystroke env c (gap, text)) text Hrest eq_refl)
      as [P Wd].
    split; [exact P|]. rewrite Wd, W. reflexivity.
Qed.

(** X11.  While keystrokes follow one another by less than 100 ms nothing
    happens but the input text changing: no request, no change of the list
    or of [isLoading].  After 100 ms of silence the debounced function
    runs once, with the last text, and nothing is left waiting. *)
Theorem burst_dispatches_last_text (env : Env) (first : jsstring)
        (more : list (nat * jsstring)) (c : Component) (dt : nat) :
  Forall (fun next => fst next < 100) more -> 100 <= dt ->
  world (typing env first more c)
  = {| ui := with_searchInput (last_typed first more) (ui (world c));
       trace := trace (world c) |}
  /\ elapse env dt (typing env first more c)
     = {| world := snd (fetchSuggestions_body
                          (last_typed first more) env
                          (world (typing env first more c)));
          pending := None |}.
Proof.
  intros Hgaps Hdt. unfold typing, last_typed.
  destruct (typing_goes_on env more (handleInputChange first c) first Hgaps
                           eq_refl) as [P W].
  split.
  - rewrite W. reflexivity.
  - unfold elapse. rewrite P.
    apply Nat.ltb_ge in Hdt. rewrite Hdt. reflexivity.
Qed.

Lemma burst_dispatches_last_text_witness :
  requests
    (trace (world
      (elapse answering_env 100
         (typing answering_env (lit "c")
                 [(20, lit "cs"); (20, lit "cse"); (20, lit "cse1")]
                 mounted))))
  = [lit "/api/courses/search?query=cse%201"].
Proof.
  destruct (burst_dispatches_last_text
              answering_env (lit "c")
              [(20, lit "cs"); (20, lit "cse"); (20, lit "cse1")]
              mounted 100) as [_ E].
  - repeat constructor.
  - apply Nat.le_refl.
  - rewrite E. reflexivity.
Defined.

(** X12.  A non-empty input whose normal form has no encoding (it holds a
    surrogate without its partner) sends no request: the [URIError] is
    caught and logged, the list is emptied and [isLoading] cleared. *)
Theorem unencodable_input_sends_nothing (input : jsstring) (env : Env)
        (w : World) :
  input <> [] ->
  encodeURIComponent (normalizeSearchInput input) = None ->
  fetchSuggestions_body input env w
  = (inl tt,
     {| ui := {| searchInput := searchInput (ui w);
                 suggestions := [];
                 isLoading := false |};
        trace := trace w
                 ++ [console_error (lit "Error fetching suggestions:")
                                   URIError] |}).
Proof.
  intros Hne He. rewrite (dispatch_run input env w Hne).
  unfold request_of. rewrite He. reflexivity.
Qed.

Lemma unencodable_input_sends_nothing_witness :
  requests (trace (snd (fetchSuggestions_body [55357%N] answering_env
                                              blank_world))) = [].
Proof.
  rewrite (unencodable_input_sends_nothing [55357%N] answering_env
                                           blank_world).
  - reflexivity.
  - discriminate.
  - reflexivity.
Defined.

(* ----------------------------------------------------------------- *)
(** ** The request of a dispatch *)

Lemma requests_app (a b : list effect) :
  requests (a ++ b) = requests a ++ requests b.
Proof. induction a as [|[] a IH]; simpl; congruence. Qed.

Lemma trim_units (s : jsstring) (c : char16) : In c (trim s) -> In c s.
Proof.
  intros H. unfold trim in H.
  destruct (trimStart_suffix s) as [w Ew].
  destruct (trimEnd_prefix (trimStart s)) as [v Ev].
  rewrite Ew. apply in_or_app. right.
  rewrite Ev. apply in_or_app. now left.
Qed.

Lemma collapsed_units (b : bool) (s : jsstring) (c : char16) :
  In c (runs_replaced [32%N] b s) -> In c s \/ c = 32%N.
Proof.
  revert b. induction s as [|d s IH]; intros b; simpl; [tauto|].
  destruct (is_space d).
  - destruct b; simpl; intros H.
    + destruct (IH _ H); tauto.
    + destruct H as [<-|H]; [tauto|]. destruct (IH _ H); tauto.
  - intros [<-|H]; [tauto|]. destruct (IH _ H); tauto.
Qed.

Lemma stripped_units (s : jsstring) (c : char16) :
  In c (stripped s) -> In c s.
Proof. unfold stripped. rewrite filter_In. tauto. Qed.

(** The code units of the result are code units of the input, spaces or
    the [g] of the second branch. *)
Lemma normalize_units (input : jsstring) (c : char16) :
  In c (normalizeSearchInput input) ->
  In c input \/ c = 32%N \/ c = 103%N.
Proof.
  destruct (test coursePattern (stripped input)) eqn:H1.
  - apply coursePattern_inv in H1 as (letters & digits & H).
    rewrite (normalize_course _ _ _ H). destruct H as (E & _).
    change (letters ++ lit " " ++ digits) with (letters ++ 32%N :: digits).
    intros Hin. apply in_app_or in Hin as [Hin|[<-|Hin]]; [|tauto|];
      left; apply stripped_units; rewrite E; apply in_or_app; tauto.
  - destruct (test professorPattern (stripped input)) eqn:H2.
    + apply professorPattern_inv in H2 as (name & g & H).
      rewrite (normalize_name _ _ _ H). destruct H as (E & _).
      change (name ++ lit " g") with (name ++ [32%N; 103%N]).
      intros Hin. apply in_app_or in Hin as [Hin|[<-|[<-|[]]]]; [|tauto..].
      left. apply stripped_units. rewrite E. apply in_or_app. tauto.
    + rewrite (normalize_other _ H1 H2). intros Hin.
      apply trim_units in Hin. apply collapsed_units in Hin. tauto.
Qed.

Lemma normalize_utf16 (input : jsstring) :
  utf16 input -> utf16 (normalizeSearchInput input).
Proof.
  unfold utf16. rewrite !Forall_forall. intros H c Hc.
  apply normalize_units in Hc as [Hc|[->| ->]]; [now apply H|lia|lia].
Qed.

(** X13.  A dispatch sends one request at most, and its URL is the search
    path with a query of unreserved code units and percent signs only:
    what was typed cannot add a parameter to the request. *)
Theorem request_is_uri_safe (input : jsstring) (env : Env) (w : World) :
  input <> [] -> utf16 input -> keeps_trace env ->
  exists sent,
    requests (trace (snd (fetchSuggestions_body input env w)))
    = requests (trace w) ++ sent
    /\ length sent <= 1
    /\ Forall
         (fun url =>
            exists query,
              url = lit "/api/courses/search?query=" ++ query
              /\ forallb is_uri_safe query = true)
         sent.
Proof.
  intros Hne Hu [Kf Kj]. rewrite (dispatch_run input env w Hne).
  unfold request_of.
  destruct (encodeURIComponent (normalizeSearchInput input))
    as [query|] eqn:E; cbn [option_map].
  - set (url := lit "/api/courses/search?query=" ++ query).
    exists [url].
    assert (Safe : forallb is_uri_safe query = true).
    { apply (encode_safe (normalizeSearchInput input)); [|assumption].
      now apply normalize_utf16. }
    assert (Sent : forall w',
               trace w' = trace (sending_world url w) ->
               requests (trace w') = requests (trace w) ++ [url]).
    { intros w' ->. cbn [sending_world trace]. now rewrite requests_app. }
    split; [|split; [simpl; lia|]].
    + pose proof (Kf url (sending_world url w)) as T1.
      destruct (settle_fetch env url (sending_world url w))
        as [w1 [response|]]; cbn [fst] in T1.
      * pose proof (Kj response w1) as T2.
        destruct (settle_json env response w1) as [w2 [data|]];
          cbn [fst] in T2; cbn [snd failed_world loaded_world trace].
        -- apply Sent. congruence.
        -- rewrite requests_app, (Sent w2) by congruence.
           simpl. now rewrite app_nil_r.
      * cbn [snd failed_world trace].
        rewrite requests_app, (Sent w1) by congruence.
        simpl. now rewrite app_nil_r.
    + constructor; [|constructor]. now exists query.
  - exists []. cbn [snd failed_world trace].
    rewrite requests_app. simpl. split; [reflexivity|].
    split; [lia | constructor].
Qed.

Lemma request_is_uri_safe_witness :
  exists sent,
    requests (trace (snd (fetchSuggestions_body (lit "c&d=1 #x") quiet_env
                                                blank_world)))
    = requests (trace blank_world) ++ sent
    /\ length sent <= 1
    /\ Forall
         (fun url =>
            exists query,
              url = lit "/api/courses/search?query=" ++ query
              /\ forallb is_uri_safe query = true)
         sent.
Proof.
  apply (request_is_uri_safe (lit "c&d=1 #x") quiet_env blank_world).
  - discriminate.
  - unfold utf16. repeat constructor.
  - split; reflexivity.
Defined.

(* ----------------------------------------------------------------- *)
(** ** The results page: what the lists hold *)

Lemma narrowed_In (selYear selSemester : JsVal) (l : list SectionRecord)
      (r : SectionRecord) :
  In r (narrowed selYear selSemester l) <->
  In r l
  /\ (is_set selYear = true -> year r = selYear)
  /\ (is_set selSemester = true -> semester r = selSemester).
Proof.
  unfold narrowed.
  destruct (is_set selYear), (is_set selSemester);
    rewrite ?filter_In, ?strict_eq_eq; intuition congruence.
Qed.

Lemma final_In (st : PageState) (r : SectionRecord) :
  In r (finalFilteredCourses st) ->
  In r (narrowed (selectedYear st) (selectedSemester st)
                 (filteredCourses st)).
Proof.
  rewrite finalFiltered_narrowed_first. apply first_per_key_In.
Qed.

Lemma filteredCourses_In (st : PageState) (r : SectionRecord) :
  In r (filteredCourses st) <->
  truthy (selectedProfessor st) = true
  /\ In r (courses st) /\ instructor1 r = selectedProfessor st.
Proof.
  rewrite filteredCourses_taught_by. unfold is_set.
  destruct (truthy (selectedProfessor st)).
  - rewrite taught_by_In. tauto.
  - simpl. split; [tauto | intros [H _]; discriminate].
Qed.


Lemma first_per_key_nonempty (l : list SectionRecord) :
  l <> [] -> dedup_by_section l <> [].
Proof. destruct l; [congruence | discriminate]. Qed.

(** X14.  A section of the list is a fetched record of the selected
    professor, of the selected year when one is set and of the selected
    semester when one is set: the list never shows anything else. *)
Theorem listed_section_matches_selection (st : PageState)
        (r : SectionRecord) :
  In r (finalFilteredCourses st) ->
  In r (courses st)
  /\ truthy (selectedProfessor st) = true
  /\ instructor1 r = selectedProfessor st
  /\ (is_set (selectedYear st) = true -> year r = selectedYear st)
  /\ (is_set (selectedSemester st) = true ->
      semester r = selectedSemester st).
Proof.
  intros H. apply final_In, narrowed_In in H as (H & Hy & Hs).
  apply filteredCourses_In in H. tauto.
Qed.

Lemma listed_section_matches_selection_witness :
  In smith_fall [smith_fall; smith_spring]
  /\ instructor1 smith_fall = JString (lit "Smith")
  /\ year smith_fall = JString (lit "2023").
Proof.
  destruct (listed_section_matches_selection
              (page_of [smith_fall; smith_spring] (JString (lit "Smith"))
                       (JString (lit "2023")))
              smith_fall) as (H1 & _ & H3 & H4 & _).
  - simpl. now left.
  - split; [exact H1|]. split; [exact H3|]. apply H4. reflexivity.
Defined.

(** X15.  A professor of the list whose value is truthy can always be
    opened: after the click the section list is not empty, and its years
    are not either. *)
Theorem listed_professor_has_sections (st : PageState) (p : JsVal) :
  In p (professors st) -> truthy p = true ->
  finalFilteredCourses (handleProfessorClick p st) <> []
  /\ years (handleProfessorClick p st) <> [].
Proof.
  intros Hin Ht. apply professors_In in Hin as (r & Hr & Hp).
  assert (F : In r (filteredCourses (handleProfessorClick p st))).
  { apply filteredCourses_In. cbn [handleProfessorClick selectedProfessor
                                   courses]. auto. }
  split.
  - rewrite finalFiltered_narrowed_first. apply first_per_key_nonempty.
    cbn [handleProfessorClick selectedYear selectedSemester].
    unfold narrowed. cbn [is_set truthy].
    intros E. rewrite E in F. contradiction.
  - unfold years. rewrite new_Set_distinct. intros E.
    assert (Y : In (year r)
                   (distinct (map year (filteredCourses
                                          (handleProfessorClick p st))))).
    { apply distinct_In, in_map_iff. now exists r. }
    rewrite E in Y. contradiction.
Qed.

Lemma listed_professor_has_sections_witness :
  finalFilteredCourses
    (handleProfessorClick (JString (lit "Smith"))
                          (loaded [smith_fall; smith_spring])) <> [].
Proof.
  apply (listed_professor_has_sections
           (loaded [smith_fall; smith_spring]) (JString (lit "Smith"))).
  - simpl. now left.
  - reflexivity.
Defined.

Lemma narrowed_by_year_only (value : jsstring) (st : PageState) :
  value <> [] -> is_set (selectedSemester st) = false ->
  finalFilteredCourses (selectYear value st)
  = dedup_by_section
      (filter (fun r => strict_eq (year r) (JString value))
              (filteredCourses st)).
Proof.
  intros Hv Hs. rewrite finalFiltered_narrowed_first.
  cbn [selectYear selectedYear selectedSemester]. unfold narrowed.
  rewrite Hs. destruct value; [congruence|]. reflexivity.
Qed.

(** X16.  A year of the dropdown that the records hold as a non-empty
    string leads to sections: with no semester set, choosing it leaves a
    list that is not empty. *)
Theorem year_option_has_sections (st : PageState) (value : jsstring) :
  In (JString value) (years st) -> value <> [] ->
  is_set (selectedSemester st) = false ->
  finalFilteredCourses (selectYear value st) <> [].
Proof.
  intros Hin Hv Hs. rewrite (narrowed_by_year_only value st Hv Hs).
  apply first_per_key_nonempty.
  unfold years in Hin. rewrite new_Set_distinct, distinct_In in Hin.
  apply in_map_iff in Hin as (r & Hy & Hr).
  intros E.
  assert (F : In r (filter (fun r => strict_eq (year r) (JString value))
                           (filteredCourses st))).
  { apply filter_In. split; [assumption|]. now apply strict_eq_eq. }
  rewrite E in F. contradiction.
Qed.

Lemma year_option_has_sections_witness :
  finalFilteredCourses
    (selectYear (lit "2022")
                (page_of [smith_fall; smith_spring] (JString (lit "Smith"))
                         JNull)) <> [].
Proof.
  apply (year_option_has_sections
           (page_of [smith_fall; smith_spring] (JString (lit "Smith")) JNull)
           (lit "2022")).
  - simpl. right. now left.
  - discriminate.
  - reflexivity.
Defined.

(** X17.  The year that is chosen is the string of the [select] element,
    and it is compared with [===]: when the records of the professor hold
    their years as numbers, choosing any year empties the section list. *)
Theorem numeric_years_match_no_choice (st : PageState) (value : jsstring) :
  (forall r, In r (filteredCourses st) -> exists n, year r = JNumber n) ->
  value <> [] ->
  finalFilteredCourses (selectYear value st) = [].
Proof.
  intros Hnum Hv. rewrite finalFiltered_narrowed_first.
  cbn [selectYear selectedYear selectedSemester].
  assert (E : filter (fun r => strict_eq (year r) (JString value))
                     (filteredCourses st) = []).
  { induction (filteredCourses st) as [|r l IH]; [reflexivity|].
    simpl. destruct (Hnum r (or_introl eq_refl)) as [n ->]. simpl.
    apply IH. intros r' Hr'. apply Hnum. now right. }
  change (filteredCourses (selectYear value st)) with (filteredCourses st).
  unfold narrowed.
  assert (S : is_set (JString value) = true)
    by (destruct value; [congruence | reflexivity]).
  rewrite S, E. now destruct (is_set (selectedSemester st)).
Qed.

Lemma numeric_years_match_no_choice_witness :
  finalFilteredCourses
    (selectYear (lit "2023")
                (page_of [numbered] (JString (lit "Smith")) JNull)) = [].
Proof.
  apply (numeric_years_match_no_choice
           (page_of [numbered] (JString (lit "Smith")) JNull) (lit "2023")).
  - intros r [<-|[]]. now exists 2023%Z.
  - discriminate.
Defined.

(* ----------------------------------------------------------------- *)
(** ** The results page: the states a user reaches *)






(** After "Back to Professors" the detail pane still shows the section. *)
Example back_keeps_the_detail :
  render (backToProfessors
            (selectSection smith_fall
               (handleProfessorClick (JString (lit "Smith"))
                                     (loaded [smith_fall; smith_spring]))))
  = ResultsScreen (ProfessorList [JString (lit "Smith")])
                  (SectionDetail smith_fall).
Proof. reflexivity. Qed.

(** A year chosen after a section leaves the detail of a section that is
    no longer in the list. *)
Example detail_outlives_the_list :
  render (selectYear (lit "2022")
            (selectSection smith_fall
               (handleProfessorClick (JString (lit "Smith"))
                                     (loaded [smith_fall; smith_spring]))))
  = ResultsScreen
      (ProfessorPanel (JString (lit "Smith"))
                      [JString (lit "2023"); JString (lit "2022")]
                      [JString (lit "Fall"); JString (lit "Spring")]
                      [smith_spring])
      (SectionDetail smith_fall).
Proof. reflexivity. Qed.

(* ----------------------------------------------------------------- *)
(** ** The results page: fetching the list *)

Import ResultsPageFetch.

(** What a call of [fetchCourses] does for a course that is there. *)
Lemma fetchCourses_run (course : option jsstring) (env : PageEnv)
      (w : PageWorld) :
  present course = true ->
  fetchCourses course env w =
  match encodeURIComponent (text_of course) with
  | None =>
      (inl tt,
       {| page := with_loading false (with_loading true (page w));
          done := done w
                  ++ [log_error (lit "Error fetching courses:") URIError] |})
  | Some query =>
      let url := lit "/api/courses/search?course=" ++ query in
      match courses_fetch env url
              {| page := with_loading true (page w);
                 done := done w ++ [send_request url] |} with
      | (w1, None) =>
          (inl tt,
           {| page := with_loading false (page w1);
              done := done w1
                      ++ [log_error (lit "Error fetching courses:")
                                    FetchRejected] |})
      | (w1, Some response) =>
          match courses_json env response w1 with
          | (w2, None) =>
              (inl tt,
               {| page := with_loading false (page w2);
                  done := done w2
                          ++ [log_error (lit "Error fetching courses:")
                                        JsonRejected] |})
          | (w2, Some data) =>
              (inl tt,
               {| page := with_loading false (with_courses data (page w2));
                  done := done w2 |})
          end
      end
  end.
Proof.
  intros Hp. unfold fetchCourses. rewrite Hp.
  unfold Eff.try_catch_finally, Eff.finally, Eff.try_catch, Eff.bind,
    Eff.of_option, ResultsPageFetch.fetch, ResultsPageFetch.json, Eff.await,
    setLoading, setCourses, on_page, record_effect, Eff.update, Eff.bind,
    Eff.ret, Eff.throw.
  cbn [page done].
  destruct (encodeURIComponent (text_of course)) as [query|];
    [|reflexivity].
  cbv zeta.
  destruct (courses_fetch env _ _) as [w1 [response|]]; [|reflexivity].
  destruct (courses_json env response w1) as [w2 [data|]]; reflexivity.
Qed.

(** X19.  [fetchCourses] never ends with an exception and always ends with
    [loading] cleared.  When the request is rejected the error is logged
    and the list is left as it was: the page goes on showing the records
    it had, those of the course before. *)
Theorem rejected_fetch_keeps_the_list (course : option jsstring)
        (env : PageEnv) (w : PageWorld) :
  present course = true ->
  fst (fetchCourses course env w) = inl tt
  /\ loading (page (snd (fetchCourses course env w))) = false
  /\ (forall w',
        course_request_rejected env course w w' ->
        courses (page (snd (fetchCourses course env w))) = courses (page w')
        /\ exists e,
            done (snd (fetchCourses course env w))
            = done w' ++ [log_error (lit "Error fetching courses:") e]).
Proof.
  intros Hp. rewrite (fetchCourses_run course env w Hp).
  unfold course_request_rejected.
  destruct (encodeURIComponent (text_of course)) as [query|].
  - cbv zeta.
    destruct (courses_fetch env _ _) as [w1 [response|]] eqn:F.
    + destruct (courses_json env response w1) as [w2 [data|]] eqn:J;
        cbn [fst snd page done loading with_loading];
        (split; [reflexivity|]); (split; [reflexivity|]);
        intros w' (q & [= <-] & R); cbv zeta in R; rewrite F in R.
      * rewrite J in R. discriminate.
      * rewrite J in R. injection R as <-.
        split; [reflexivity|]. now exists JsonRejected.
    + cbn [fst snd page done loading with_loading].
      split; [reflexivity|]. split; [reflexivity|].
      intros w' (q & [= <-] & R). cbv zeta in R. rewrite F in R. subst w'.
      split; [reflexivity|]. now exists FetchRejected.
  - cbn [fst snd page done loading with_loading].
    split; [reflexivity|]. split; [reflexivity|].
    intros w' (q & E & _). discriminate.
Qed.

Lemma rejected_fetch_keeps_the_list_witness :
  courses (page (snd (fetchCourses
                        (Some (lit "CSE 3320")) refuses
                        {| page := loaded [smith_fall; smith_spring];
                           done := [] |})))
  = [smith_fall; smith_spring].
Proof.
  destruct (rejected_fetch_keeps_the_list
              (Some (lit "CSE 3320")) refuses
              {| page := loaded [smith_fall; smith_spring]; done := [] |}
              eq_refl) as (_ & _ & H).
  destruct (H {| page := with_loading true
                           (loaded [smith_fall; smith_spring]);
                 done := [send_request
                            (lit "/api/courses/search?course=CSE%203320")] |})
    as [E _].
  - exists (lit "CSE%203320"). split; reflexivity.
  - rewrite E. reflexivity.
Defined.

(** X20.  A course that is fetched without anything else happening leaves
    the page with the new list, nothing loading and nothing selected:
    professor, year, semester and section of the course before are
    gone. *)
Theorem new_course_starts_clean (course : option jsstring)
        (query : jsstring) (data : list SectionRecord) (w : PageWorld) :
  present course = true ->
  encodeURIComponent (text_of course) = Some query ->
  page (courseEffect course (serves data) w) = loaded data
  /\ done (courseEffect course (serves data) w)
     = done w ++ [send_request (lit "/api/courses/search?course=" ++ query)].
Proof.
  intros Hp He. unfold courseEffect. rewrite Hp, He.
  rewrite (fetchCourses_run course _ w Hp), He.
  cbv zeta. split; reflexivity.
Qed.

Lemma new_course_starts_clean_witness :
  page (courseEffect
          (Some (lit "CSE 1310")) (serves [smith_fall])
          {| page := selectSection smith_spring
                       (handleProfessorClick
                          (JString (lit "Smith"))
                          (loaded [smith_fall; smith_spring]));
             done := [] |})
  = loaded [smith_fall].
Proof.
  apply (new_course_starts_clean (Some (lit "CSE 1310")) (lit "CSE%201310"));
    reflexivity.
Defined.

(** X21.  Without a [course] parameter, or with an empty one, the effect
    does nothing at all: the page that was mounted with [loading] set
    shows its loading screen for good, whatever the network does, and
    offers no click and no choice.  The professor route of the search bar
    has no [course] parameter. *)
Theorem absent_course_never_loads (course : option jsstring)
        (env : PageEnv) (w : PageWorld) :
  present course = false ->
  courseEffect course env w = w
  /\ render (page (courseEffect course env mounted_page)) = LoadingScreen
  /\ forall e, ~ offered (page (courseEffect course env mounted_page)) e.
Proof.
  intros Hp. unfold courseEffect. rewrite Hp.
  split; [reflexivity|]. split; [reflexivity|].
  intros e. unfold offered. cbn. now destruct e.
Qed.

Lemma absent_course_never_loads_witness :
  render (page (courseEffect None (serves [smith_fall]) mounted_page))
  = LoadingScreen.
Proof.
  apply (absent_course_never_loads None (serves [smith_fall]) mounted_page).
  reflexivity.
Defined.

(** X22.  The search bar the results page mounts has no reset callback and
    knows no displayed content, so no selection in it
    calls a reset: the page is reset by its effect on [course] alone. *)
Theorem page_search_bar_never_resets (course : option jsstring)
        (picked : jsstring) (env : Env) (w : World) :
  exists added,
    trace (snd (handleSearch (searchBar_props course) picked env w))
    = trace w ++ added
    /\ resets added = 0
    /\ length (pushed added) <= 1.
Proof.
  rewrite handleSearch_run.
  assert (R : reset_calls (searchBar_props course) picked = []).
  { unfold reset_calls. cbn [searchBar_props resetState].
    now destruct (negb _). }
  destruct (encodeURIComponent (searched_value picked)) as [value|];
    cbn [snd trace selected_world]; rewrite R.
  - eexists. rewrite <- app_assoc. split; [reflexivity|].
    split; [reflexivity | simpl; lia].
  - eexists. split; [reflexivity|]. split; [reflexivity | simpl; lia].
Qed.

(* ----------------------------------------------------------------- *)
(** ** The earlier search bar *)

Import LegacySearchBar.

Lemma fetched_app (a b : list legacy_effect) :
  fetched (a ++ b) = fetched a ++ fetched b.
Proof. induction a as [|[] a IH]; simpl; congruence. Qed.

(** What a dispatch of the earlier search bar does with two code units or
    more. *)
Lemma legacy_dispatch_run (input : jsstring) (env : LegacyEnv)
      (w : LegacyWorld) :
  2 <= length input ->
  LegacySearchBar.fetchSuggestions_body input env w =
  let url := lit "/api/courses/search?query=" ++ input in
  let failed e w' :=
    {| cells := with_isLoading false
                         (with_suggestions [] (cells w'));
       professor_param := professor_param w';
       course_param := course_param w';
       effects :=
         effects w'
         ++ [say_error (lit "Error fetching suggestions:") e] |} in
  match legacy_fetch env url
          {| cells := with_isLoading true (cells w);
             professor_param := professor_param w;
             course_param := course_param w;
             effects := effects w ++ [do_fetch url] |}
  with
  | (w1, None) => (inl tt, failed FetchRejected w1)
  | (w1, Some response) =>
      match legacy_json env response w1 with
      | (w2, None) => (inl tt, failed JsonRejected w2)
      | (w2, Some data) =>
          (inl tt,
           {| cells := with_isLoading false
                                (with_suggestions data (cells w2));
              professor_param := professor_param w2;
              course_param := course_param w2;
              effects := effects w2 |})
      end
  end.
Proof.
  intros Hlen. unfold LegacySearchBar.fetchSuggestions_body.
  assert (L : (1 <? length input) = true) by now apply Nat.ltb_lt.
  rewrite L.
  unfold Eff.try_catch_finally, Eff.finally, Eff.try_catch, Eff.bind,
    Eff.await, on_cells, emit, Eff.update.
  cbn [cells professor_param course_param
       effects].
  cbv zeta.
  destruct (legacy_fetch env _ _) as [w1 [response|]];
    [|reflexivity].
  destruct (legacy_json env response w1) as [w2 [data|]];
    reflexivity.
Qed.

(** X23.  The earlier search bar asks for suggestions from two code units
    on: an input of one code unit, like the empty one, only empties the
    list.  From two on it sends one request, whose URL holds the input as
    it was typed, neither normalized nor encoded; the dispatch never ends
    with an exception and ends with [isLoading] cleared. *)
Theorem legacy_dispatch_threshold (input : jsstring)
        (env : LegacyEnv) (w : LegacyWorld) :
  keeps_effects env ->
  fst (LegacySearchBar.fetchSuggestions_body input env w) = inl tt
  /\ (length input <= 1 ->
      snd (LegacySearchBar.fetchSuggestions_body input env w)
      = {| cells := with_suggestions [] (cells w);
           professor_param := professor_param w;
           course_param := course_param w;
           effects := effects w |})
  /\ (2 <= length input ->
      isLoading
        (cells (snd (LegacySearchBar.fetchSuggestions_body input env w)))
      = false
      /\ fetched (effects
                    (snd (LegacySearchBar.fetchSuggestions_body input env w)))
         = fetched (effects w)
           ++ [lit "/api/courses/search?query=" ++ input]).
Proof.
  intros [Kf Kj].
  destruct (Nat.le_gt_cases (length input) 1) as [Short|Long].
  - assert (L : (1 <? length input) = false) by now apply Nat.ltb_ge.
    unfold LegacySearchBar.fetchSuggestions_body. rewrite L.
    split; [reflexivity|]. split; [reflexivity | lia].
  - rewrite (legacy_dispatch_run input env w Long). cbv zeta.
    set (url := lit "/api/courses/search?query=" ++ input).
    set (sent := {| cells := _; effects := _ |}).
    pose proof (Kf url sent) as T1.
    destruct (legacy_fetch env url sent) as [w1 [response|]];
      cbn [fst] in T1.
    + pose proof (Kj response w1) as T2.
      destruct (legacy_json env response w1) as [w2 [data|]];
        cbn [fst] in T2; cbn [fst snd cells effects];
        (split; [reflexivity|]); (split; [lia|]); intros _;
        (split; [reflexivity|]).
      * rewrite T2, T1. subst sent. cbn [effects].
        now rewrite fetched_app.
      * rewrite fetched_app, T2, T1. subst sent. cbn [effects].
        rewrite fetched_app. simpl. now rewrite app_nil_r.
    + cbn [fst snd cells effects].
      split; [reflexivity|]. split; [lia|]. intros _.
      split; [reflexivity|].
      rewrite fetched_app, T1. subst sent. cbn [effects].
      rewrite fetched_app. simpl. now rewrite app_nil_r.
Qed.

Lemma legacy_dispatch_threshold_witness :
  snd (LegacySearchBar.fetchSuggestions_body (lit "c") legacy_refuses
                                    (legacy_world None))
  = {| cells := with_suggestions [] (cells (legacy_world None));
       professor_param := None;
       course_param := None;
       effects := [] |}
  /\ fetched (effects
                (snd (LegacySearchBar.fetchSuggestions_body
                        (lit "c s&x") legacy_refuses (legacy_world None))))
     = [lit "/api/courses/search?query=c s&x"].
Proof.
  split.
  - apply (legacy_dispatch_threshold (lit "c") legacy_refuses
                                     (legacy_world None)).
    + split; reflexivity.
    + simpl. lia.
  - apply (legacy_dispatch_threshold (lit "c s&x") legacy_refuses
                                     (legacy_world None)).
    + split; reflexivity.
    + simpl. lia.
Defined.

(** X24.  A selection in the earlier search bar calls one callback at most
    and navigates exactly once when its text can be encoded; when it
    cannot, the [URIError] comes before any callback and any navigation. *)
Theorem legacy_selection_effects (props : LegacyProps)
        (picked : jsstring) (env : LegacyEnv)
        (w : LegacyWorld) :
  exists added,
    effects (snd (LegacySearchBar.handleSearch props picked env w))
    = effects w ++ added
    /\ callbacks added <= 1
    /\ navigations added
       = match encodeURIComponent picked with Some _ => 1 | None => 0 end
    /\ (encodeURIComponent picked = None -> added = []).
Proof.
  unfold LegacySearchBar.handleSearch, Eff.bind, Eff.read, Eff.of_option,
    on_cells, emit, Eff.update, Eff.ret, Eff.throw.
  cbn [cells professor_param course_param
       effects].
  destruct (encodeURIComponent picked) as [value|].
  - destruct (existsb _ (suggestions (cells w)));
      destruct (param_is _ picked);
      cbn [andb];
      destruct (has_resetCourse props),
        (has_resetProf props), (has_resetState props);
      cbn [snd effects];
      eexists; rewrite <- ?app_assoc;
      (split; [reflexivity|]); cbn; (split; [lia|]);
      (split; [reflexivity | discriminate]).
  - exists []. cbn [snd effects]. rewrite app_nil_r.
    split; [reflexivity|]. split; [cbn; lia|].
    split; reflexivity.
Qed.

(** Selecting the course of the current URL again, in the earlier search
    bar: the professor callback runs and the route is replaced. *)
Example legacy_same_course :
  effects
    (snd (LegacySearchBar.handleSearch
            legacy_props (lit "CSE 1310") legacy_refuses
            (legacy_world (Some (lit "CSE 1310")))))
  = [say (lit "resetting setSelectedProfessor");
     run_resetProf;
     do_replace (lit "/results?course=CSE%201310")].
Proof. vm_compute. reflexivity. Qed.
